(** * Visual Product Matcher: the similarity and ranking pipeline of [app.py]

    A shallow embedding of the request-independent logic of the Flask
    back end ([calculate_similarity], [get_product_embedding],
    [analyze_image], [build_query_embedding], [search_products],
    [get_products]) together with the properties the specification states
    about them.

    Modelling conventions.
    - A Python [str] is a [string]; a character is a code point below 256,
      so [str.lower], [str.split] and [str.strip] are the Latin-1 fragment
      of the Unicode behaviour, where lower-casing acts character by
      character. Properties of letter case are stated through the
      lower-case forms the code compares, or for ASCII letters.
    - A Python [float] score is an exact rational of [Q]: no rounding
      error is modelled. [round4] rounds that exact score, a tie to the
      even neighbour; the double the code rounds can lie off a tie the
      exact score lies on (0.0625 * 1.3), so a property of a rounded
      score says that it is a nearest multiple of 0.0001, not which of
      the two at a tie.
    - A raised exception is the [Raise] constructor of [result].
    - Library calls whose code is outside the repository ([json.loads],
      [repr], the vision provider, [request.json]) are parameters of the
      functions that use them. *)

From Stdlib Require Import Ascii String QArith Qround Qminmax Lqa.
From Stdlib Require Import Sorting.Sorted Sorting.Permutation.
From Stdlib Require OrderedTypeEx.
From stdpp Require Import gmap strings list fin_maps.

Local Open Scope string_scope.

(* ===================================================================== *)
(** ** Python string operations *)
(* ===================================================================== *)

Module Str.

Definition code (c : ascii) : N := N_of_ascii c.

(** [str.isspace] on one character: the ASCII white space of
    [_Py_ascii_whitespace] and the two Latin-1 characters NEL, NBSP. *)
Definition isspace (c : ascii) : bool :=
  let n := code c in
  (((9 <=? n) && (n <=? 13)) || ((28 <=? n) && (n <=? 32))
   || (n =? 133) || (n =? 160))%N.

(** Upper-case letters that [str.lower] changes: A-Z, and the Latin-1
    capitals 192-222 without the multiplication sign 215. *)
Definition isupper (c : ascii) : bool :=
  let n := code c in
  (((65 <=? n) && (n <=? 90))
   || ((192 <=? n) && (n <=? 222) && negb (n =? 215)))%N.

Definition lower_char (c : ascii) : ascii :=
  if isupper c then ascii_of_N (code c + 32) else c.

(** [s.lower()] *)
Fixpoint lower (s : string) : string :=
  match s with
  | EmptyString => EmptyString
  | String c s' => String (lower_char c) (lower s')
  end.

(** [s.startswith(p)] *)
Fixpoint startswith (s p : string) {struct p} : bool :=
  match p, s with
  | EmptyString, _ => true
  | String _ _, EmptyString => false
  | String a p', String b s' => if Ascii.eqb a b then startswith s' p' else false
  end.

(** [needle in hay] on strings: substring test. *)
Fixpoint contains (needle hay : string) : bool :=
  if startswith hay needle then true
  else match hay with
       | EmptyString => false
       | String _ hay' => contains needle hay'
       end.

(** [s.split()]: maximal runs of non-space characters, in order. [cur]
    holds the characters of the current run, reversed. *)
Fixpoint split_aux (s : string) (cur : list ascii) : list string :=
  match s with
  | EmptyString =>
      match cur with
      | [] => []
      | _ => [string_of_list_ascii (rev cur)]
      end
  | String c s' =>
      if isspace c then
        match cur with
        | [] => split_aux s' []
        | _ => string_of_list_ascii (rev cur) :: split_aux s' []
        end
      else split_aux s' (c :: cur)
  end.

Definition split (s : string) : list string := split_aux s [].

(** [s.split(sep)] for a one-character separator: empty pieces are kept. *)
Fixpoint split_on_aux (sep : ascii) (s : string) (cur : list ascii) : list string :=
  match s with
  | EmptyString => [string_of_list_ascii (rev cur)]
  | String c s' =>
      if Ascii.eqb c sep
      then string_of_list_ascii (rev cur) :: split_on_aux sep s' []
      else split_on_aux sep s' (c :: cur)
  end.

Definition split_on (sep : ascii) (s : string) : list string :=
  split_on_aux sep s [].

(** [sep.join(parts)] *)
Fixpoint join (sep : string) (parts : list string) : string :=
  match parts with
  | [] => EmptyString
  | [p] => p
  | p :: rest => p ++ sep ++ join sep rest
  end.

Fixpoint lstrip (s : string) : string :=
  match s with
  | EmptyString => EmptyString
  | String c s' => if isspace c then lstrip s' else s
  end.

Fixpoint rstrip (s : string) : string :=
  match s with
  | EmptyString => EmptyString
  | String c s' =>
      match rstrip s' with
      | EmptyString => if isspace c then EmptyString else String c EmptyString
      | r => String c r
      end
  end.

(** [s.strip()] *)
Definition strip (s : string) : string := rstrip (lstrip s).

(** [s.find(c)] for a one-character needle: [None] stands for -1. *)
Fixpoint find (c : ascii) (s : string) : option nat :=
  match s with
  | EmptyString => None
  | String d s' =>
      if Ascii.eqb d c then Some 0
      else match find c s' with
           | Some i => Some (S i)
           | None => None
           end
  end.

(** [s.rfind(c)] *)
Fixpoint rfind (c : ascii) (s : string) : option nat :=
  match s with
  | EmptyString => None
  | String d s' =>
      match rfind c s' with
      | Some i => Some (S i)
      | None => if Ascii.eqb d c then Some 0 else None
      end
  end.

(** [s[:n]] *)
Fixpoint take (n : nat) (s : string) : string :=
  match n, s with
  | O, _ => EmptyString
  | _, EmptyString => EmptyString
  | S n', String c s' => String c (take n' s')
  end.

(** [s[n:]] *)
Fixpoint drop (n : nat) (s : string) : string :=
  match n, s with
  | O, _ => s
  | _, EmptyString => EmptyString
  | S n', String _ s' => drop n' s'
  end.

(** [s[i:j]] for 0 <= i, 0 <= j *)
Definition slice (i j : nat) (s : string) : string := take (j - i) (drop i s).

(** Truthiness of a string: [bool(s)]. *)
Definition nonempty (s : string) : bool :=
  match s with EmptyString => false | _ => true end.

End Str.

(* ===================================================================== *)
(** ** Exceptions *)
(* ===================================================================== *)

Inductive exn : Type :=
| ZeroDivisionError
| TypeError
| AttributeError
| JSONDecodeError
| IndexError
| KeyError
| ProviderError
| ImageError.

Inductive result (A : Type) : Type :=
| Ok (a : A)
| Raise (e : exn).
Arguments Ok {A} a.
Arguments Raise {A} e.

Definition rbind {A B : Type} (r : result A) (k : A -> result B) : result B :=
  match r with
  | Ok a => k a
  | Raise e => Raise e
  end.

Notation "'try!' x ':=' r 'in' k" := (rbind r (fun x => k))
  (at level 10, x name, r at level 100, k at level 200).

(* ===================================================================== *)
(** ** Similarity scorer *)
(* ===================================================================== *)

(** [n / m] on two lengths: true division, raising on a zero divisor. *)
Definition true_div (n m : nat) : result Q :=
  match m with
  | O => Raise ZeroDivisionError
  | S _ => Ok (Z.of_nat n # Pos.of_nat m)
  end.

(** [min(a, b)]: Python returns [a] unless [b < a]. *)
Definition py_min (a b : Q) : Q := if Qle_bool a b then a else b.

Definition category_keywords : list string :=
  [ "phone"; "laptop"; "camera"; "shoes"; "watch"; "headphones";
    "tablet"; "monitor"; "keyboard"; "mouse"; "speaker"; "jacket";
    "jeans"; "sunglasses"; "chair"; "desk"; "bottle"; "vacuum";
    "smartphone"; "computer"; "footwear"; "clothing"; "furniture";
    "electronics"; "accessory"; "home"; "device" ].

(** [set(embedding.lower().split())] *)
Definition words (embedding : string) : gset string :=
  list_to_set (Str.split (Str.lower embedding)).

Definition category_match (embedding1 embedding2 : string) : bool :=
  existsb (fun keyword =>
             Str.contains keyword (Str.lower embedding1)
             && Str.contains keyword (Str.lower embedding2))
          category_keywords.

Definition calculate_similarity (embedding1 embedding2 : string) : result Q :=
  let words1 := words embedding1 in
  let words2 := words embedding2 in
  let intersection := words1 ∩ words2 in
  let union := words1 ∪ words2 in
  if Nat.eqb (size union) 0 then Ok 0%Q
  else
    try! base_similarity := true_div (size intersection) (size union) in
    let similarity :=
      if category_match embedding1 embedding2
      then (base_similarity * (13 # 10))%Q
      else base_similarity in
    Ok (py_min similarity 1%Q).


(* ===================================================================== *)
(** ** Catalog store and embedding cache *)
(* ===================================================================== *)

Record Product : Type := {
  id : Z;
  name : string;
  category : string;
  price : Q;
  image_url : string;
  description : string
}.

(** The two module globals: the catalog loaded at start-up and the
    process-wide embedding cache. *)
Record State : Type := {
  PRODUCTS : list Product;
  product_embeddings_cache : gmap Z string
}.

Definition get_product_embedding (product : Product) (st : State) : string * State :=
  let product_id := id product in
  match product_embeddings_cache st !! product_id with
  | Some cached => (cached, st)
  | None =>
      let description :=
        name product ++ " " ++ category product ++ " " ++ description product in
      let embedding := Str.lower description in
      (embedding,
       {| PRODUCTS := PRODUCTS st;
          product_embeddings_cache :=
            <[product_id := embedding]> (product_embeddings_cache st) |})
  end.

(* ===================================================================== *)
(** ** JSON values and Python dictionaries *)
(* ===================================================================== *)

#[warnings="-register-all"] Inductive json : Type :=
| JNull
| JBool (b : bool)
| JNumber (q : Q)
| JString (s : string)
| JArray (items : list json)
| JObject (fields : list (string * json)).

(** A [dict] with string keys, in insertion order; every key occurs once. *)
Abbreviation Dict := (list (string * json)).

(** [d.get(k)] *)
Fixpoint dict_get (k : string) (d : Dict) : option json :=
  match d with
  | [] => None
  | (k', v) :: d' => if String.eqb k k' then Some v else dict_get k d'
  end.

(** [d[k] = v]: overwrite in place, or append a new key. *)
Fixpoint dict_set (k : string) (v : json) (d : Dict) : Dict :=
  match d with
  | [] => [(k, v)]
  | (k', v') :: d' =>
      if String.eqb k k' then (k', v) :: d' else (k', v') :: dict_set k v d'
  end.

(** [d.setdefault(k, v)] *)
Definition dict_setdefault (k : string) (v : json) (d : Dict) : Dict :=
  match dict_get k d with
  | Some _ => d
  | None => dict_set k v d
  end.

(** [isinstance(v, list)] *)
Definition is_list (v : json) : bool :=
  match v with JArray _ => true | _ => false end.

(** [isinstance(v, str)] *)
Definition is_str (v : json) : bool :=
  match v with JString _ => true | _ => false end.

(** [bool(v)] *)
Definition truthy (v : json) : bool :=
  match v with
  | JNull => false
  | JBool b => b
  | JNumber q => negb (Qeq_bool q 0)
  | JString s => Str.nonempty s
  | JArray items => match items with [] => false | _ => true end
  | JObject fields => match fields with [] => false | _ => true end
  end.

Definition list_fields : list string :=
  ["colors"; "materials"; "style"; "objects"; "suggested_tags"].

(** The literal dictionary the three fall-back branches build. *)
Definition fallback (summary : string) : Dict :=
  [ ("summary", JString summary);
    ("category", JString "Unknown");
    ("colors", JArray []);
    ("materials", JArray []);
    ("style", JArray []);
    ("objects", JArray []);
    ("suggested_tags", JArray []) ].

(* ===================================================================== *)
(** ** Image analyzer *)
(* ===================================================================== *)

Definition newline : ascii := ascii_of_nat 10.

(** [lines[-1]] and [lines[:-1]] on a non-empty list. *)
Definition drop_closing_fence (lines : list string) : list string :=
  match last lines with
  | Some l => if String.eqb (Str.strip l) "```" then removelast lines else lines
  | None => lines
  end.

(** Lines 108-116: strip a Markdown code fence around the reply. *)
Definition strip_fences (text : string) : result string :=
  if Str.startswith text "```" then
    let lines := Str.split_on newline text in
    try! lines :=
      match lines with
      | [] => Raise IndexError
      | l0 :: rest => Ok (if Str.startswith l0 "```" then rest else lines)
      end in
    let lines := drop_closing_fence lines in
    Ok (Str.strip (Str.join (String newline EmptyString) lines))
  else Ok text.

(** Lines 119-124: the slice from the first opening to the last closing
    brace, when there is one. *)
Definition extract_json_text (text : string) : string :=
  match Str.find "{" text, Str.rfind "}" text with
  | Some start, Some end_ =>
      if (start <? end_)%nat then Str.slice start (end_ + 1) text else text
  | _, _ => text
  end.

(** [analysis.setdefault(k, v)] on whatever [json.loads] returned: only a
    [dict] has the method. *)
Definition setdefault (k : string) (v : json) (analysis : json) : result json :=
  match analysis with
  | JObject d => Ok (JObject (dict_setdefault k v d))
  | _ => Raise AttributeError
  end.

(** One turn of the loop of lines 144-146. *)
Definition normalize_field (analysis : json) (k : string) : result json :=
  match analysis with
  | JObject d =>
      let v := match dict_get k d with Some v => v | None => JArray [] end in
      Ok (JObject (dict_set k (if is_list v then v else JArray []) d))
  | _ => Raise AttributeError
  end.

Fixpoint normalize_fields (analysis : json) (ks : list string) : result json :=
  match ks with
  | [] => Ok analysis
  | k :: ks' =>
      try! analysis := normalize_field analysis k in
      normalize_fields analysis ks'
  end.

(** What the caller receives: always a dictionary. *)
Definition as_dict (analysis : json) : result Dict :=
  match analysis with
  | JObject d => Ok d
  | _ => Raise AttributeError
  end.

(** What the provider does with one request. [response.text] may itself
    raise, or be [None]. *)
Inductive provider_outcome : Type :=
| GenerateRaises
| Response (text : result (option string)).

(** The payload handed to [model.generate_content]. *)
Inductive payload (Image : Type) : Type :=
| Inline (image_data : Image)
| MimeData (mime_type : string) (data : Image).
Arguments Inline {Image} image_data.
Arguments MimeData {Image} mime_type data.

(** Lines 105-116: the text of the reply, stripped of surrounding white
    space and of a code fence. *)
Definition reply_text (outcome : provider_outcome) : result string :=
  match outcome with
  | GenerateRaises => Raise ProviderError
  | Response response_text =>
      try! t := response_text in
      let text := Str.strip (match t with Some s => s | None => EmptyString end) in
      strip_fences text
  end.

Section Analyzer.

Variable Image : Type.
(** [model.generate_content]: the external vision provider. *)
Variable generate_content : payload Image -> provider_outcome.
(** [json.loads]: [Raise] when the text is not JSON. *)
Variable json_loads : string -> result json.

(** Lines 118-147: parse the reply, or wrap it, and normalize the result. *)
Definition parse_reply (text : string) : result Dict :=
  let json_text := extract_json_text text in
  let analysis :=
    match json_loads json_text with
    | Ok a => a
    | Raise _ =>
        JObject (fallback (if Str.nonempty text then Str.take 600 text
                           else "Unable to analyze image."))
    end in
  try! analysis := setdefault "summary" (JString EmptyString) analysis in
  try! analysis := setdefault "category" (JString "Unknown") analysis in
  try! analysis := normalize_fields analysis list_fields in
  as_dict analysis.

(** Lines 92-147, the body of the outer [try]. The first component
    records the payloads sent to the provider. *)
Definition analyze_body (image_data : Image) (is_url : bool)
  : list (payload Image) * result Dict :=
  let request :=
    if is_url then MimeData "image/jpeg" image_data else Inline image_data in
  ([request],
   try! text := reply_text (generate_content request) in
   parse_reply text).

Definition analyze_image (GEMINI_ENABLED : bool) (image_data : Image) (is_url : bool)
  : list (payload Image) * result Dict :=
  if negb GEMINI_ENABLED then
    ([], Ok (fallback "Image uploaded. AI analysis is unavailable in offline mode."))
  else
    let '(sent, r) := analyze_body image_data is_url in
    match r with
    | Ok analysis => (sent, Ok analysis)
    | Raise _ => (sent, Ok (fallback "Unable to analyze image at this time."))
    end.

End Analyzer.

(** [GEMINI_ENABLED = bool(GEMINI_API_KEY)] *)
Definition GEMINI_ENABLED (GEMINI_API_KEY : option string) : bool :=
  match GEMINI_API_KEY with
  | Some key => Str.nonempty key
  | None => false
  end.

(* ===================================================================== *)
(** ** Query embedder *)
(* ===================================================================== *)

Section Embedder.

(** [repr] of a value that is not a string; [str] of such a value is its
    [repr]. *)
Variable repr : json -> string.

(** [str(v)] *)
Definition py_str (v : json) : string :=
  match v with
  | JString s => s
  | _ => repr v
  end.

(** The elements [map(str, v)] iterates over: the items of a list, the
    characters of a string, the keys of a dictionary; other values are not
    iterable. *)
Definition iterate (v : json) : result (list json) :=
  match v with
  | JArray items => Ok items
  | JString s => Ok (map (fun c => JString (String c EmptyString)) (list_ascii_of_string s))
  | JObject fields => Ok (map (fun kv => JString (fst kv)) fields)
  | _ => Raise TypeError
  end.

(** [' '.join(map(str, analysis.get(k, [])))] *)
Definition joined (analysis : Dict) (k : string) : result json :=
  try! items := iterate (default (JArray []) (dict_get k analysis)) in
  Ok (JString (Str.join " " (map py_str items))).

(** The argument check of [' '.join]: every part has to be a [str]. *)
Fixpoint str_items (parts : list json) : result (list string) :=
  match parts with
  | [] => Ok []
  | JString s :: rest =>
      try! rest := str_items rest in
      Ok (s :: rest)
  | _ :: _ => Raise TypeError
  end.

Definition build_query_embedding (analysis : Dict) : result string :=
  let summary := default (JString EmptyString) (dict_get "summary" analysis) in
  let category := default (JString EmptyString) (dict_get "category" analysis) in
  try! colors := joined analysis "colors" in
  try! materials := joined analysis "materials" in
  try! style := joined analysis "style" in
  try! objects := joined analysis "objects" in
  try! suggested_tags := joined analysis "suggested_tags" in
  let parts := [summary; category; colors; materials; style; objects; suggested_tags] in
  try! kept := str_items (List.filter truthy parts) in
  Ok (Str.strip (Str.join " " kept)).

End Embedder.

(* ===================================================================== *)
(** ** Search orchestrator *)
(* ===================================================================== *)

Record Ranked : Type := {
  product : Product;
  similarity : Q
}.

(** Nearest integer, ties to the even one. *)
Definition round_half_even (x : Q) : Z :=
  let f := Qfloor x in
  match (x - inject_Z f ?= 1 # 2)%Q with
  | Lt => f
  | Gt => (f + 1)%Z
  | Eq => if Z.even f then f else (f + 1)%Z
  end.

(** [round(x, 4)], taken on the exact score: a tie goes to the even
    neighbour. *)
Definition round4 (x : Q) : Q := round_half_even (x * 10000) # 10000.

(** [list.sort(key=similarity, reverse=True)]: a stable sort, largest key
    first. An element goes in front of the first one whose key is not
    larger than its own. *)
Fixpoint insert_desc (x : Ranked) (l : list Ranked) : list Ranked :=
  match l with
  | [] => [x]
  | y :: l' =>
      if Qle_bool (similarity y) (similarity x) then x :: y :: l'
      else y :: insert_desc x l'
  end.

Fixpoint sort_desc (l : list Ranked) : list Ranked :=
  match l with
  | [] => []
  | x :: l' => insert_desc x (sort_desc l')
  end.

Definition TOP_RESULTS_LIMIT : nat := 20.

Definition ALLOWED_EXTENSIONS : list string := ["png"; "jpg"; "jpeg"; "gif"; "webp"].

Inductive error_message : Type :=
| NoFileSelected
| InvalidFileType
| NoImageUrl
| FailedToFetch (e : exn)
| NoImageOrUrl
| SearchFailed (e : exn).

Inductive response : Type :=
| Success (analysis : Dict) (results : list Ranked) (total_results : nat)
| Error (status : nat) (message : error_message).

(** The loop of lines 425-432. The cache keeps what was stored before an
    exception. *)
Fixpoint score_products (image_embedding : string) (products : list Product) (st : State)
  : result (list Ranked) * State :=
  match products with
  | [] => (Ok [], st)
  | p :: rest =>
      let '(product_embedding, st) := get_product_embedding p st in
      match calculate_similarity image_embedding product_embedding with
      | Raise e => (Raise e, st)
      | Ok s =>
          let '(r, st) := score_products image_embedding rest st in
          (try! similarities := r in
           Ok ({| product := p; similarity := round4 s |} :: similarities), st)
      end
  end.

(** Lines 422-445: score the catalog, sort, keep the top of the list. *)
Definition rank_products (image_analysis : Dict) (image_embedding : string) (st : State)
  : response * State :=
  let '(r, st) := score_products image_embedding (PRODUCTS st) st in
  match r with
  | Raise e => (Error 500 (SearchFailed e), st)
  | Ok similarities =>
      let similarities := sort_desc similarities in
      let top_results := take 20 similarities in
      (Success image_analysis top_results (length top_results), st)
  end.

(** [key in v] for a string [key]: a key of a dictionary, an element of a
    list, a substring of a string. *)
Definition py_in (key : string) (v : json) : result bool :=
  match v with
  | JObject fields =>
      Ok (match dict_get key fields with Some _ => true | None => false end)
  | JArray items =>
      Ok (existsb (fun item => match item with
                               | JString s => String.eqb key s
                               | _ => false
                               end) items)
  | JString s => Ok (Str.contains key s)
  | _ => Raise TypeError
  end.

(** [v[key]] for a string [key]: only a dictionary can be indexed by a
    string. *)
Definition py_getitem (v : json) (key : string) : result json :=
  match v with
  | JObject fields =>
      match dict_get key fields with
      | Some x => Ok x
      | None => Raise KeyError
      end
  | _ => Raise TypeError
  end.

(** What a request carries: an uploaded file with the outcome of decoding
    it; a JSON object body with its [image_url] and the outcome of
    fetching and decoding it; any JSON body as [request.json] yields it
    ([Raise] when it cannot be parsed), with the same outcome; or neither
    a file nor JSON. *)
Inductive request (Image : Type) : Type :=
| FileUpload (filename : string) (opened : result Image)
| JsonUrl (image_url : json) (fetched : result Image)
| JsonBody (body : result json) (fetched : result Image)
| NoImage.
Arguments FileUpload {Image} filename opened.
Arguments JsonUrl {Image} image_url fetched.
Arguments JsonBody {Image} body fetched.
Arguments NoImage {Image}.

(** [filename.rsplit('.', 1)[1]] *)
Definition after_last_dot (filename : string) : string :=
  match Str.rfind "." filename with
  | Some i => Str.drop (i + 1) filename
  | None => filename
  end.

Section Search.

Variable Image : Type.
Variable generate_content : payload Image -> provider_outcome.
Variable json_loads : string -> result json.
Variable repr : json -> string.
Variable GEMINI_API_KEY : option string.

(** Analyze + build embedding (lines 389-390 and 413-414). *)
Definition describe (image : Image) : result (Dict * string) :=
  try! image_analysis :=
    snd (analyze_image Image generate_content json_loads
           (GEMINI_ENABLED GEMINI_API_KEY) image false) in
  try! image_embedding := build_query_embedding repr image_analysis in
  Ok (image_analysis, image_embedding).

(** Lines 364-420: either the response that ends the request early, or
    the analysis and the query embedding. *)
Definition read_query (req : request Image) : response + Dict * string :=
  match req with
  | FileUpload filename opened =>
      if String.eqb filename EmptyString then inl (Error 400 NoFileSelected)
      else
        let file_ext :=
          if Str.contains "." filename then Str.lower (after_last_dot filename)
          else EmptyString in
        if negb (existsb (String.eqb file_ext) ALLOWED_EXTENSIONS)
        then inl (Error 400 InvalidFileType)
        else
          match (try! image := opened in describe image) with
          | Raise e => inl (Error 500 (SearchFailed e))
          | Ok q => inr q
          end
  | JsonUrl image_url fetched =>
      if negb (truthy image_url) then inl (Error 400 NoImageUrl)
      else
        match (try! image := fetched in describe image) with
        | Raise e => inl (Error 400 (FailedToFetch e))
        | Ok q => inr q
        end
  | JsonBody body fetched =>
      (* lines 393-394: ['image_url' in request.json] and
         [request.json['image_url']] are outside the inner [try] *)
      match (try! data := body in
             try! present := py_in "image_url" data in
             if present then
               try! image_url := py_getitem data "image_url" in Ok (Some image_url)
             else Ok None) with
      | Raise e => inl (Error 500 (SearchFailed e))
      | Ok None => inl (Error 400 NoImageOrUrl)
      | Ok (Some image_url) =>
          if negb (truthy image_url) then inl (Error 400 NoImageUrl)
          else
            match (try! image := fetched in describe image) with
            | Raise e => inl (Error 400 (FailedToFetch e))
            | Ok q => inr q
            end
      end
  | NoImage => inl (Error 400 NoImageOrUrl)
  end.

Definition search_products (req : request Image) (st : State) : response * State :=
  match read_query req with
  | inl early => (early, st)
  | inr (image_analysis, image_embedding) =>
      rank_products image_analysis image_embedding st
  end.

End Search.

(* ===================================================================== *)
(** ** Product listing *)
(* ===================================================================== *)

Record listing : Type := {
  products : list Product;
  count : nat
}.

(** [category] is [request.args.get('category', None)]. *)
Definition get_products (category_arg : option string) (st : State) : listing :=
  let all := {| products := PRODUCTS st; count := length (PRODUCTS st) |} in
  match category_arg with
  | Some c =>
      if Str.nonempty c then
        let filtered_products :=
          List.filter (fun p => String.eqb (Str.lower (category p)) (Str.lower c))
                      (PRODUCTS st) in
        {| products := filtered_products; count := length filtered_products |}
      else all
  | None => all
  end.

(* ===================================================================== *)
(** ** Category list and health check *)
(* ===================================================================== *)

(** [list.sort()] on strings: ascending in the code-point order of
    [str], stable. *)
Fixpoint insert_asc (x : string) (l : list string) : list string :=
  match l with
  | [] => [x]
  | y :: l' => if String.leb x y then x :: y :: l' else y :: insert_asc x l'
  end.

Fixpoint sort_asc (l : list string) : list string :=
  match l with
  | [] => []
  | x :: l' => insert_asc x (sort_asc l')
  end.

(** Lines 536-539. [list(set(...))] lists the set in some order; the
    enumeration of the finite set stands for it. *)
Definition get_categories (st : State) : list string :=
  let categories :=
    elements (list_to_set (map category (PRODUCTS st)) : gset string) in
  sort_asc categories.

Record health : Type := {
  status : string;
  products_count : nat;
  gemini_configured : bool
}.

(** Lines 569-573. *)
Definition health_check (GEMINI_API_KEY : option string) (st : State) : health :=
  {| status := "healthy";
     products_count := length (PRODUCTS st);
     gemini_configured := GEMINI_ENABLED GEMINI_API_KEY |}.

(* ===================================================================== *)
(** ** Catalog validator ([validate_products.py]) *)
(* ===================================================================== *)

Definition required_keys : list string :=
  ["id"; "name"; "category"; "price"; "image_url"; "description"].

(** [len(v)] *)
Definition py_len (v : json) : result nat :=
  match v with
  | JArray items => Ok (length items)
  | JObject fields => Ok (length fields)
  | JString s => Ok (String.length s)
  | _ => Raise TypeError
  end.

(** The inner loop of lines 25-28: [Ok false] at the first missing key. *)
Fixpoint has_keys (product : json) (keys : list string) : result bool :=
  match keys with
  | [] => Ok true
  | key :: keys' =>
      try! present := py_in key product in
      if present then has_keys product keys' else Ok false
  end.

(** The outer loop of lines 24-28. *)
Fixpoint check_products (products : list json) : result bool :=
  match products with
  | [] => Ok true
  | product :: rest =>
      try! complete := has_keys product required_keys in
      if complete then check_products rest else Ok false
  end.

(** [validate_products()]; [loaded] is the outcome of opening
    [products.json] and of [json.load]. *)
Definition validate_products (loaded : result json) : bool :=
  match (try! products := loaded in
         try! n := py_len products in
         if (n <? 50)%nat then Ok false
         else
           try! items := iterate products in
           check_products items) with
  | Ok verdict => verdict
  | Raise _ => false
  end.

(* ===================================================================== *)
(** ** The specification's vocabulary *)
(* ===================================================================== *)

(** [k] occurs as a substring of [s]. *)
Definition is_substring (k s : string) : Prop :=
  exists before after, s = before ++ k ++ after.

(** Some keyword of the fixed list occurs in both lowercased inputs. *)
Definition keyword_in_both (a b : string) : Prop :=
  exists keyword,
    In keyword category_keywords
    /\ is_substring keyword (Str.lower a)
    /\ is_substring keyword (Str.lower b).

(** The Jaccard coefficient of the two token sets as the specification
    defines it: |intersection| / |union|, and 0 when the union is empty. *)
Definition spec_jaccard (a b : string) : Q :=
  let inter := size (words a ∩ words b) in
  let union := size (words a ∪ words b) in
  match union with
  | O => 0
  | S _ => inject_Z (Z.of_nat inter) / inject_Z (Z.of_nat union)
  end.

(** No character of [t] is white space. *)
Definition no_space (t : string) : Prop :=
  forall before c after, t = before ++ String c after -> Str.isspace c = false.

(** What stands before a token: nothing, or a text ending in white space. *)
Definition left_edge (before : string) : Prop :=
  before = EmptyString
  \/ exists b c, before = b ++ String c EmptyString /\ Str.isspace c = true.

(** What stands after a token: nothing, or a text starting with white
    space. *)
Definition right_edge (after : string) : Prop :=
  after = EmptyString
  \/ exists c a, after = String c a /\ Str.isspace c = true.

(** [t] is a whitespace token of [u]: a non-empty run of characters other
    than white space that is delimited, on either side, by white space or
    by an end of [u]. *)
Definition token_in (t u : string) : Prop :=
  t <> EmptyString
  /\ no_space t
  /\ exists before after,
       u = before ++ t ++ after /\ left_edge before /\ right_edge after.

(** [A] is the lowercase whitespace-token set of [s]. *)
Definition token_set (s : string) (A : gset string) : Prop :=
  forall t, t ∈ A <-> token_in t (Str.lower s).

(** The Jaccard coefficient of two sets: |intersection| / |union|, and 0
    when the union is empty. *)
Definition jaccard (A B : gset string) : Q :=
  match size (A ∪ B) with
  | O => 0
  | S _ => inject_Z (Z.of_nat (size (A ∩ B))) / inject_Z (Z.of_nat (size (A ∪ B)))
  end.

(** An ASCII letter and its other case: [A]-[Z] are the code points 65-90
    and each small letter lies 32 above its capital. *)
Definition ascii_letter_pair (x y : ascii) : Prop :=
  ((65 <= Str.code x <= 90)%N /\ Str.code y = (Str.code x + 32)%N)
  \/ ((65 <= Str.code y <= 90)%N /\ Str.code x = (Str.code y + 32)%N).

(** Two strings that differ only in the case of ASCII letters. *)
Inductive ascii_case_variant : string -> string -> Prop :=
| variant_nil : ascii_case_variant EmptyString EmptyString
| variant_cons (x y : ascii) (s t : string) :
    x = y \/ ascii_letter_pair x y -> ascii_case_variant s t ->
    ascii_case_variant (String x s) (String y t).

(** The capital form of one character, as [str.upper] gives it, where it
    stays within Latin-1: the sharp s (223) becomes [SS]; the small
    letters a-z and 224-254, the division sign 247 apart, lie 32 above
    their capitals; the capitals of the micro sign (181) and of the y
    with diaeresis (255) lie outside Latin-1. *)
Definition upper_char (c : ascii) : option string :=
  let n := Str.code c in
  if (n =? 223)%N then Some "SS"
  else if ((n =? 181) || (n =? 255))%N then None
  else if (((97 <=? n) && (n <=? 122))
           || ((224 <=? n) && (n <=? 254) && negb (n =? 247)))%N
       then Some (String (ascii_of_N (n - 32)) EmptyString)
       else Some (String c EmptyString).

(** [s.upper()], where it stays within Latin-1. *)
Fixpoint upper (s : string) : option string :=
  match s with
  | EmptyString => Some EmptyString
  | String c s' =>
      match upper_char c, upper s' with
      | Some u, Some r => Some (u ++ r)
      | _, _ => None
      end
  end.

(** Equality of the lower-case forms: the comparison the listing makes. *)
Definition caseless_eq (s t : string) : Prop := Str.lower s = Str.lower t.

#[global] Instance caseless_eq_dec (s t : string) : Decision (caseless_eq s t).
Proof. unfold caseless_eq. apply _. Defined.

(** A ranked list in descending order of score. *)
Definition descending (l : list Ranked) : Prop :=
  StronglySorted (fun x y => (similarity y <= similarity x)%Q) l.

(** The entries of [l] that carry the score [q], in the order of [l]. *)
Definition with_score (q : Q) (l : list Ranked) : list Ranked :=
  List.filter (fun r => Qeq_bool (similarity r) q) l.

(** [l'] keeps entries of equal score in the order they have in [l]. *)
Definition keeps_tie_order (l l' : list Ranked) : Prop :=
  forall q, with_score q l' = with_score q l.

(** The entry [r] pairs the product [p] with the rounded score of the
    query embedding against the embedding the cache of [st] holds for it. *)
Definition scored_from (image_embedding : string) (st : State)
    (p : Product) (r : Ranked) : Prop :=
  product r = p
  /\ exists q,
       calculate_similarity image_embedding (fst (get_product_embedding p st)) = Ok q
       /\ similarity r = round4 q.

(** [r] is [q] rounded to 4 decimal places: a multiple of 0.0001 nearest
    to [q]. At a tie either neighbour qualifies: the double the code
    rounds need not sit exactly on the tie its exact score sits on. *)
Definition rounded_to_4 (q r : Q) : Prop :=
  (exists k : Z, r = k # 10000)
  /\ (r - (1 # 20000) <= q /\ q <= r + (1 # 20000))%Q.

(** The entry [r] pairs the product [p] with a rounding to 4 decimal
    places of the score of the query embedding against the embedding the
    cache of [st] holds for it. *)
Definition scored_rounded (image_embedding : string) (st : State)
    (p : Product) (r : Ranked) : Prop :=
  product r = p
  /\ exists q,
       calculate_similarity image_embedding (fst (get_product_embedding p st)) = Ok q
       /\ rounded_to_4 q (similarity r).

(** The embedding of a product: its lowercased name, category and
    description. *)
Definition product_text (p : Product) : string :=
  Str.lower (name p ++ " " ++ category p ++ " " ++ description p).

(** Every cache entry of a catalog product is that product's embedding. *)
Definition coherent (st : State) : Prop :=
  forall p e,
    In p (PRODUCTS st) ->
    product_embeddings_cache st !! id p = Some e ->
    e = product_text p.

(** A run of cache look-ups, one after the other. *)
Definition run_lookups (ps : list Product) (st : State) : State :=
  fold_left (fun st p => snd (get_product_embedding p st)) ps st.

(** The shape the normalization of lines 142-146 establishes: both text
    keys are present and every list field holds a list. *)
Definition normalized (d : Dict) : Prop :=
  is_Some (dict_get "summary" d)
  /\ is_Some (dict_get "category" d)
  /\ forall k, In k list_fields -> exists items, dict_get k d = Some (JArray items).

(** The stronger shape of the data model: summary and category are
    strings as well. *)
Definition well_typed (d : Dict) : Prop :=
  (exists s, dict_get "summary" d = Some (JString s))
  /\ (exists c, dict_get "category" d = Some (JString c))
  /\ forall k, In k list_fields -> exists items, dict_get k d = Some (JArray items).

(** A string with no white space at its start and none at its end. *)
Definition trimmed (r : string) : Prop :=
  forall c,
    (exists t, r = String c t) \/ (exists t, r = t ++ String c EmptyString) ->
    Str.isspace c = false.

(** The character [c] does not occur in [s]. *)
Definition absent (c : ascii) (s : string) : Prop :=
  forall before after, s <> before ++ String c after.

(** A catalog record with all six required keys. *)
Definition complete_record (item : json) : Prop :=
  exists d, item = JObject d
            /\ forall k, In k required_keys -> is_Some (dict_get k d).

(** Strictly ascending in the lexicographic code-point order. *)
Definition strictly_ascending (l : list string) : Prop :=
  StronglySorted OrderedTypeEx.String_as_OT.lt l.

(** [v if isinstance(v, list) else []] for [v = d.get(k, [])]. *)
Definition list_or_empty (o : option json) : json :=
  match o with
  | Some (JArray items) => JArray items
  | _ => JArray []
  end.

(** A value [map(str, v)] cannot iterate over: [None], a boolean, a number. *)
Definition scalar (v : json) : bool :=
  match v with
  | JNull | JBool _ | JNumber _ => true
  | _ => false
  end.

(** A part that survives the emptiness filter and is no string. *)
Definition unjoinable (v : json) : bool := truthy v && negb (is_str v).

(* ===================================================================== *)
(** ** Sample data *)
(* ===================================================================== *)

(** The product of the docstring of [get_product_embedding]. *)
Definition iphone : Product :=
  {| id := 1; name := "iPhone 15"; category := "Electronics"; price := 999;
     image_url := "https://example.com/iphone.jpg";
     description := "Latest smartphone" |}.

Definition sneaker : Product :=
  {| id := 2; name := "Red Sneaker"; category := "Footwear"; price := 59;
     image_url := "https://example.com/sneaker.jpg";
     description := "running shoes" |}.

Definition boots : Product :=
  {| id := 3; name := "Hiking Boots"; category := "footwear"; price := 120;
     image_url := "https://example.com/boots.jpg";
     description := "leather boots" |}.

Definition sample_state : State :=
  {| PRODUCTS := [iphone; sneaker; boots]; product_embeddings_cache := ∅ |}.

Definition empty_catalog : State :=
  {| PRODUCTS := []; product_embeddings_cache := ∅ |}.

(** A provider reply whose summary is a number and whose category is
    [null], and what [json.loads] makes of it. *)
Definition quote : string := String (ascii_of_nat 34) EmptyString.

Definition odd_reply : string :=
  "{" ++ quote ++ "summary" ++ quote ++ ": 123, "
      ++ quote ++ "category" ++ quote ++ ": null}".

Definition odd_object : json :=
  JObject [("summary", JNumber 123); ("category", JNull)].

Definition odd_provider (_ : payload unit) : provider_outcome :=
  Response (Ok (Some odd_reply)).

Definition failing_provider (_ : payload unit) : provider_outcome := GenerateRaises.

(** A provider that answers in prose. *)
Definition chatty_provider (_ : payload unit) : provider_outcome :=
  Response (Ok (Some "  Sorry, I cannot describe this image. ")).

(** A well-formed reply, and what [json.loads] makes of it. *)
Definition sample_description : Dict :=
  [ ("summary", JString "A red running shoe.");
    ("category", JString "Footwear");
    ("colors", JArray [JString "red"; JString "white"]);
    ("materials", JArray []);
    ("style", JArray [JString "sporty"]);
    ("objects", JArray [JString "shoe"]);
    ("suggested_tags", JArray [JString "sneaker"; JString "running"]) ].

Definition quoted (s : string) : string := quote ++ s ++ quote.

Definition shoe_reply : string :=
  "{" ++ quoted "summary" ++ ": " ++ quoted "A red running shoe." ++ ", "
      ++ quoted "category" ++ ": " ++ quoted "Footwear" ++ ", "
      ++ quoted "colors" ++ ": [" ++ quoted "red" ++ ", " ++ quoted "white" ++ "], "
      ++ quoted "materials" ++ ": [], "
      ++ quoted "style" ++ ": [" ++ quoted "sporty" ++ "], "
      ++ quoted "objects" ++ ": [" ++ quoted "shoe" ++ "], "
      ++ quoted "suggested_tags" ++ ": [" ++ quoted "sneaker" ++ ", "
      ++ quoted "running" ++ "]}".

Definition shoe_provider (_ : payload unit) : provider_outcome :=
  Response (Ok (Some shoe_reply)).

(** A stand-in for [json.loads] that knows the two replies above. *)
Definition sample_loads (text : string) : result json :=
  if String.eqb text odd_reply then Ok odd_object
  else if String.eqb text shoe_reply then Ok (JObject sample_description)
  else Raise JSONDecodeError.

Definition sample_repr (_ : json) : string := "?".

Definition shoe_upload : request unit := FileUpload "shoe.PNG" (Ok tt).

(** A provider that answers with a JSON list, and a stand-in for
    [json.loads] that knows that reply. *)
Definition list_provider (_ : payload unit) : provider_outcome :=
  Response (Ok (Some "[]")).

Definition list_loads (text : string) : result json :=
  if String.eqb text "[]" then Ok (JArray []) else Raise JSONDecodeError.

(** A category spelt in capitals, and the same word with a sharp s. *)
Definition match_ball : Product :=
  {| id := 4; name := "Match Ball"; category := "FUSSBALL"; price := 25;
     image_url := "https://example.com/ball.jpg";
     description := "football" |}.

Definition sharp_s : ascii := ascii_of_nat 223.

Definition Fussball : string := "Fu" ++ String sharp_s "ball".

Definition ball_shop : State :=
  {| PRODUCTS := [match_ball]; product_embeddings_cache := ∅ |}.

(** A provider that answers with a list holding one empty object, and a
    stand-in for [json.loads] that knows that reply and the object. *)
Definition nested_provider (_ : payload unit) : provider_outcome :=
  Response (Ok (Some ("[{" ++ "}]"))).

Definition nested_loads (text : string) : result json :=
  if String.eqb text ("[{" ++ "}]") then Ok (JArray [JObject []])
  else if String.eqb text ("{" ++ "}") then Ok (JObject [])
  else Raise JSONDecodeError.

(** A catalog record as [products.json] holds it. *)
Definition sneaker_record : Dict :=
  [ ("id", JNumber 2); ("name", JString "Red Sneaker");
    ("category", JString "Footwear"); ("price", JNumber 59);
    ("image_url", JString "https://example.com/sneaker.jpg");
    ("description", JString "running shoes") ].

(* ===================================================================== *)
(** ** Properties of the string operations *)
(* ===================================================================== *)

Lemma str_app_cons (c : ascii) (s t : string) : String c s ++ t = String c (s ++ t).
Proof. reflexivity. Qed.

Lemma str_app_nil_l (t : string) : EmptyString ++ t = t.
Proof. reflexivity. Qed.

Ltac str_simpl := simpl; rewrite ?str_app_cons, ?str_app_nil_l; simpl.
Ltac str_simpl_in H := simpl in H; rewrite ?str_app_cons, ?str_app_nil_l in H; simpl in H.

Lemma str_app_nil (s : string) : s ++ EmptyString = s.
Proof. induction s as [|c s IH]; str_simpl; [reflexivity | now rewrite IH]. Qed.

Lemma str_app_assoc (a b c : string) : (a ++ b) ++ c = a ++ b ++ c.
Proof. induction a as [|x a IH]; str_simpl; [reflexivity | now rewrite IH]. Qed.

Lemma str_of_list_snoc (l : list ascii) (c : ascii) (t : string) :
  string_of_list_ascii (l ++ [c]) ++ t = string_of_list_ascii l ++ String c t.
Proof. induction l as [|x l IH]; str_simpl; [reflexivity | now rewrite IH]. Qed.

Lemma str_app_eq_app (x y u v : string) :
  x ++ y = u ++ v ->
  (exists m, u = x ++ m /\ y = m ++ v) \/ (exists m, x = u ++ m /\ v = m ++ y).
Proof.
  revert u. induction x as [|c x IH]; intros u H.
  - left. exists u. now rewrite !str_app_nil_l in *.
  - destruct u as [|d u].
    + right. exists (String c x). now rewrite !str_app_nil_l in *.
    + rewrite !str_app_cons in H. injection H as -> H.
      destruct (IH u H) as [[m [-> ->]]|[m [-> ->]]]; [left|right];
        exists m; now rewrite str_app_cons.
Qed.

Lemma str_app_empty (x y : string) :
  x ++ y = EmptyString -> x = EmptyString /\ y = EmptyString.
Proof. destruct x; [now rewrite str_app_nil_l | discriminate]. Qed.

Lemma str_snoc_tail (x y b : string) (d : ascii) :
  x ++ y = b ++ String d EmptyString -> y <> EmptyString ->
  exists b', y = b' ++ String d EmptyString.
Proof.
  intros H Hy. destruct (str_app_eq_app _ _ _ _ H) as [[m [_ ->]]|[m [_ Hm]]].
  - now exists m.
  - destruct m as [|e m].
    + rewrite str_app_nil_l in Hm. subst y. now exists EmptyString.
    + rewrite str_app_cons in Hm. injection Hm as _ Hm. symmetry in Hm.
      apply str_app_empty in Hm as [_ Hm]. contradiction.
Qed.

Lemma no_space_nil : no_space EmptyString.
Proof. intros [|x before] c after H; discriminate H. Qed.

Lemma no_space_snoc (pre : string) (c : ascii) :
  no_space pre -> Str.isspace c = false -> no_space (pre ++ String c EmptyString).
Proof.
  intros Hpre Hc before d after H.
  destruct (str_app_eq_app _ _ _ _ H) as [[m [-> Hm]]|[m [-> Hm]]].
  - destruct m as [|e m].
    + rewrite str_app_nil_l in Hm. now injection Hm as <- _.
    + rewrite str_app_cons in Hm. injection Hm as _ Hm.
      symmetry in Hm. apply str_app_empty in Hm as [_ Hm]. discriminate Hm.
  - destruct m as [|e m].
    + rewrite str_app_nil_l in Hm. now injection Hm as <- _.
    + rewrite str_app_cons in Hm. injection Hm as <- _.
      now apply (Hpre before d m).
Qed.

(** A text without white space has one token, itself, unless it is empty. *)
Lemma token_in_run (t pre : string) :
  no_space pre -> (token_in t pre <-> t = pre /\ pre <> EmptyString).
Proof.
  intros Hpre. split.
  - intros [Ht [_ [before [after [E [Hl Hr]]]]]].
    destruct Hl as [->|[b [c [-> Hc]]]].
    + destruct Hr as [->|[c [a [-> Hc]]]].
      * rewrite str_app_nil_l, str_app_nil in E. subst pre. now split.
      * rewrite str_app_nil_l in E. rewrite (Hpre t c a E) in Hc. discriminate Hc.
    + rewrite str_app_assoc, str_app_cons, str_app_nil_l in E.
      rewrite (Hpre b c _ E) in Hc. discriminate Hc.
  - intros [-> Hne]. split; [exact Hne|]. split; [exact Hpre|].
    exists EmptyString, EmptyString.
    rewrite str_app_nil_l, str_app_nil. split; [reflexivity|]. split; now left.
Qed.

(** The tokens of a text that starts with a run [pre] followed by white
    space: the run, unless it is empty, and the tokens of the rest. *)
Lemma token_in_after_space (t pre s : string) (c : ascii) :
  no_space pre -> Str.isspace c = true ->
  (token_in t (pre ++ String c s)
   <-> (t = pre /\ pre <> EmptyString) \/ token_in t s).
Proof.
  intros Hpre Hc. split.
  - intros [Ht [Hns [before [after [E [Hl Hr]]]]]].
    assert (Hrun : pre = before ++ t -> t = pre /\ pre <> EmptyString).
    { intros Ep. destruct Hl as [->|[b [d [-> Hd]]]].
      - rewrite str_app_nil_l in Ep. subst pre. now split.
      - rewrite str_app_assoc, str_app_cons, str_app_nil_l in Ep.
        rewrite (Hpre b d _ Ep) in Hd. discriminate Hd. }
    destruct (str_app_eq_app _ _ _ _ E) as [[m [-> Hm]]|[m [-> Hm]]].
    + destruct m as [|e m].
      * rewrite str_app_nil_l in Hm. destruct t as [|x t]; [contradiction|].
        rewrite str_app_cons in Hm. injection Hm as <- _.
        rewrite (Hns EmptyString c t eq_refl) in Hc. discriminate Hc.
      * rewrite str_app_cons in Hm. injection Hm as <- ->.
        right. split; [exact Ht|]. split; [exact Hns|].
        exists m, after. split; [reflexivity|]. split; [|exact Hr].
        destruct m as [|x m]; [now left|]. right.
        destruct Hl as [Hl|[b [d [Hb Hd]]]].
        { apply str_app_empty in Hl as [_ Hl]. discriminate Hl. }
        change (pre ++ String c (String x m))
          with (pre ++ String c EmptyString ++ String x m) in Hb.
        rewrite <- str_app_assoc in Hb.
        destruct (str_snoc_tail _ _ _ _ Hb) as [b' Hb']; [discriminate|].
        now exists b', d.
    + symmetry in Hm.
      destruct (str_app_eq_app _ _ _ _ Hm) as [[m2 [E2 Hm2]]|[m2 [E2 Hm2]]].
      * destruct m2 as [|e m2].
        -- rewrite str_app_nil in E2. subst m. left. now apply Hrun.
        -- rewrite str_app_cons in Hm2. injection Hm2 as <- _.
           rewrite (Hns m c m2 E2) in Hc. discriminate Hc.
      * destruct m2 as [|e m2].
        -- rewrite str_app_nil in E2. subst m. left. now apply Hrun.
        -- subst m. rewrite str_app_cons in Hm2.
           destruct Hr as [->|[d [a [-> Hd]]]]; [discriminate Hm2|].
           injection Hm2 as -> _.
           rewrite <- str_app_assoc in Hpre.
           rewrite (Hpre (before ++ t) e m2 eq_refl) in Hd. discriminate Hd.
  - intros [[-> Hne]|[Ht [Hns [before [after [-> [Hl Hr]]]]]]].
    + split; [exact Hne|]. split; [exact Hpre|].
      exists EmptyString, (String c s). rewrite str_app_nil_l.
      split; [reflexivity|]. split; [now left|]. right. now exists c, s.
    + split; [exact Ht|]. split; [exact Hns|].
      exists (pre ++ String c before), after. split.
      * now rewrite str_app_assoc, str_app_cons.
      * split; [|exact Hr]. right.
        destruct Hl as [->|[b [d [-> Hd]]]].
        -- now exists pre, c.
        -- exists (pre ++ String c b), d. split; [|exact Hd].
           now rewrite str_app_assoc, str_app_cons.
Qed.

Lemma str_of_list_rev_cons (c : ascii) (cur : list ascii) :
  string_of_list_ascii (rev (c :: cur))
  = string_of_list_ascii (rev cur) ++ String c EmptyString.
Proof.
  cbn [rev]. rewrite <- (str_app_nil (string_of_list_ascii (rev cur ++ [c]))).
  apply str_of_list_snoc.
Qed.

Lemma str_of_list_rev_nonempty (c : ascii) (cur : list ascii) :
  string_of_list_ascii (rev (c :: cur)) <> EmptyString.
Proof.
  rewrite str_of_list_rev_cons. intros H.
  apply str_app_empty in H as [_ H]. discriminate H.
Qed.

(** [split] returns the whitespace tokens: the runs it cuts are those the
    specification describes. *)
Lemma split_aux_spec (t s : string) (cur : list ascii) :
  no_space (string_of_list_ascii (rev cur)) ->
  In t (Str.split_aux s cur) <-> token_in t (string_of_list_ascii (rev cur) ++ s).
Proof.
  revert cur. induction s as [|c s IH]; intros cur Hpre.
  - rewrite str_app_nil, (token_in_run _ _ Hpre). destruct cur as [|x cur].
    + cbn. split; [contradiction | now intros [_ H]].
    + cbn [Str.split_aux In]. pose proof (str_of_list_rev_nonempty x cur).
      split; [intros [<-|[]]; now split | intros [-> _]; now left].
  - cbn [Str.split_aux]. destruct (Str.isspace c) eqn:Hc.
    + rewrite (token_in_after_space _ _ _ _ Hpre Hc).
      specialize (IH [] no_space_nil). cbn [rev string_of_list_ascii] in IH.
      rewrite str_app_nil_l in IH. destruct cur as [|x cur].
      * rewrite IH. cbn. split; [now right | intros [[_ H]|H]; [contradiction|exact H]].
      * cbn [In]. rewrite IH. pose proof (str_of_list_rev_nonempty x cur).
        split; [intros [<-|H']; [left; now split | now right]
               | intros [[-> _]|H']; [now left | now right]].
    + rewrite IH.
      * rewrite str_of_list_rev_cons, str_app_assoc, str_app_cons, str_app_nil_l.
        reflexivity.
      * rewrite str_of_list_rev_cons. now apply no_space_snoc.
Qed.

(** The set the scorer builds is the lowercase whitespace-token set. *)
Lemma words_spec (s : string) : token_set s (words s).
Proof.
  intros t. unfold words, Str.split.
  rewrite elem_of_list_to_set, list_elem_of_In.
  rewrite (split_aux_spec t (Str.lower s) [] no_space_nil).
  cbn [rev string_of_list_ascii]. now rewrite str_app_nil_l.
Qed.

Lemma token_set_unique (s : string) (A : gset string) :
  token_set s A -> A = words s.
Proof.
  intros H. apply set_eq. intros t. rewrite (H t). symmetry. apply words_spec.
Qed.

Lemma startswith_spec (p s : string) :
  Str.startswith s p = true <-> exists after, s = p ++ after.
Proof.
  revert s. induction p as [|a p IH]; intros s; simpl.
  - split; [intros _; now exists s | intros _; reflexivity].
  - destruct s as [|b s].
    + split; [discriminate | intros [x Hx]; discriminate].
    + destruct (Ascii.eqb a b) eqn:E.
      * apply Ascii.eqb_eq in E. subst b. rewrite IH. split.
        -- intros [x ->]. now exists x.
        -- intros [x Hx]. injection Hx as ->. now exists x.
      * apply Ascii.eqb_neq in E. split; [discriminate|].
        intros [x Hx]. injection Hx as Hab _. congruence.
Qed.

Lemma contains_spec (k s : string) :
  Str.contains k s = true <-> is_substring k s.
Proof.
  unfold is_substring. induction s as [|c s IH].
  - simpl. destruct (Str.startswith EmptyString k) eqn:E.
    + apply startswith_spec in E as [x Hx]. split; [intros _|intros _; reflexivity].
      exists EmptyString, x. exact Hx.
    + split; [discriminate|]. intros [u [v Huv]].
      destruct u; [|discriminate]. simpl in Huv.
      assert (Str.startswith EmptyString k = true) by (apply startswith_spec; eauto).
      congruence.
  - cbn [Str.contains]. destruct (Str.startswith (String c s) k) eqn:E.
    + apply startswith_spec in E as [x Hx]. split; [intros _|intros _; reflexivity].
      exists EmptyString, x. exact Hx.
    + rewrite IH. split.
      * intros [u [v ->]]. now exists (String c u), v.
      * intros [u [v Huv]]. destruct u as [|d u].
        -- simpl in Huv.
           assert (Str.startswith (String c s) k = true)
             by (apply startswith_spec; eauto).
           congruence.
        -- injection Huv as _ ->. now exists u, v.
Qed.

Lemma existsb_pointwise {A : Type} (f g : A -> bool) (l : list A) :
  (forall x, f x = g x) -> existsb f l = existsb g l.
Proof.
  intros H. induction l as [|x l IH]; simpl; [reflexivity|].
  now rewrite H, IH.
Qed.

Lemma category_match_spec (a b : string) :
  category_match a b = true <-> keyword_in_both a b.
Proof.
  unfold category_match, keyword_in_both. rewrite existsb_exists.
  split; intros [k [Hk H]]; exists k; split; try exact Hk.
  - apply andb_true_iff in H as [H1 H2].
    split; now apply contains_spec.
  - destruct H as [H1 H2]. apply andb_true_iff.
    split; now apply contains_spec.
Qed.

Lemma category_match_comm (a b : string) :
  category_match a b = category_match b a.
Proof.
  unfold category_match. apply existsb_pointwise.
  intros k. apply andb_comm.
Qed.

(* ===================================================================== *)
(** ** Properties of the similarity scorer *)
(* ===================================================================== *)

Lemma inter_le_union (A B : gset string) : (size (A ∩ B) <= size (A ∪ B))%nat.
Proof.
  apply subseteq_size. intros x Hx.
  apply elem_of_intersection in Hx as [Hx _].
  apply elem_of_union. now left.
Qed.

Lemma true_div_succ (n m : nat) :
  true_div n (S m) = Ok (Z.of_nat n # Pos.of_nat (S m)).
Proof. reflexivity. Qed.

Lemma Zpos_of_nat_succ (m : nat) : Z.pos (Pos.of_nat (S m)) = Z.of_nat (S m).
Proof.
  rewrite <- (Nat2Pos.id (S m)) at 2 by discriminate.
  now rewrite positive_nat_Z.
Qed.

Lemma ratio_bounds (n m : nat) :
  (n <= S m)%nat ->
  (0 <= Z.of_nat n # Pos.of_nat (S m) /\ Z.of_nat n # Pos.of_nat (S m) <= 1)%Q.
Proof.
  intros H. unfold Qle. cbn [Qnum Qden].
  rewrite Zpos_of_nat_succ. lia.
Qed.

Lemma py_min_le_r (a b : Q) : (py_min a b <= b)%Q.
Proof.
  unfold py_min. destruct (Qle_bool a b) eqn:E.
  - now apply Qle_bool_iff.
  - apply Qle_refl.
Qed.

Lemma py_min_nonneg (a b : Q) : (0 <= a)%Q -> (0 <= b)%Q -> (0 <= py_min a b)%Q.
Proof. intros Ha Hb. unfold py_min. now destruct (Qle_bool a b). Qed.

Lemma py_min_Qmin (a b : Q) : (py_min a b == Qmin a b)%Q.
Proof.
  unfold py_min. destruct (Qle_bool a b) eqn:E.
  - apply Qle_bool_iff in E. symmetry. now apply Q.min_l.
  - assert (H : ~ (a <= b)%Q) by (rewrite <- Qle_bool_iff; congruence).
    apply Qnot_le_lt in H. symmetry. apply Q.min_r. now apply Qlt_le_weak.
Qed.

Lemma py_min_id (a b : Q) : (a <= b)%Q -> py_min a b = a.
Proof.
  intros H. unfold py_min. apply Qle_bool_iff in H. now rewrite H.
Qed.

(** The value the scorer returns, once the union is known not to be
    empty. *)
Lemma calculate_similarity_nonempty (a b : string) (u : nat) :
  size (words a ∪ words b) = S u ->
  calculate_similarity a b =
    Ok (py_min (if category_match a b
                then (Z.of_nat (size (words a ∩ words b)) # Pos.of_nat (S u)) * (13 # 10)
                else Z.of_nat (size (words a ∩ words b)) # Pos.of_nat (S u)) 1)%Q.
Proof.
  intros Hu. unfold calculate_similarity. rewrite Hu. reflexivity.
Qed.

Lemma calculate_similarity_empty (a b : string) :
  size (words a ∪ words b) = O -> calculate_similarity a b = Ok 0%Q.
Proof.
  intros Hu. unfold calculate_similarity. now rewrite Hu.
Qed.

Lemma spec_jaccard_ratio (a b : string) (u : nat) :
  size (words a ∪ words b) = S u ->
  (spec_jaccard a b == Z.of_nat (size (words a ∩ words b)) # Pos.of_nat (S u))%Q.
Proof.
  intros Hu. unfold spec_jaccard. rewrite Hu.
  rewrite (Qmake_Qdiv (Z.of_nat (size (words a ∩ words b))) (Pos.of_nat (S u))).
  now rewrite Zpos_of_nat_succ.
Qed.

Lemma boosted_nonneg (r : Q) : (0 <= r)%Q -> (0 <= r * (13 # 10))%Q.
Proof. intros H. apply Qmult_le_0_compat; [exact H | discriminate]. Qed.

(** C1. Let [A] and [B] be the lowercase whitespace-token sets of [a] and
    [b]. When some keyword of the fixed list is a substring of both
    lowercased inputs, the score is min(jaccard(A, B) * 1.3, 1); when
    none is, the score is the Jaccard coefficient itself. *)
Theorem calculate_similarity_keyword_boost (a b : string) (A B : gset string) :
  token_set a A -> token_set b B ->
  exists q,
    calculate_similarity a b = Ok q
    /\ (keyword_in_both a b -> (q == Qmin (jaccard A B * (13 # 10)) 1)%Q)
    /\ (~ keyword_in_both a b -> (q == jaccard A B)%Q).
Proof.
  intros HA HB.
  rewrite (token_set_unique a A HA), (token_set_unique b B HB).
  change (jaccard (words a) (words b)) with (spec_jaccard a b).
  destruct (size (words a ∪ words b)) as [|u] eqn:Hu.
  - exists 0%Q. split; [now apply calculate_similarity_empty|].
    unfold spec_jaccard. rewrite Hu. split; intros _; reflexivity.
  - pose proof (inter_le_union (words a) (words b)) as Hle. rewrite Hu in Hle.
    destruct (ratio_bounds _ _ Hle) as [H0 H1].
    pose proof (spec_jaccard_ratio a b u Hu) as Hj.
    eexists. split; [apply (calculate_similarity_nonempty a b u Hu)|].
    split; intros Hk.
    + apply category_match_spec in Hk. rewrite Hk.
      rewrite py_min_Qmin. now rewrite Hj.
    + destruct (category_match a b) eqn:E.
      * exfalso. apply Hk. now apply category_match_spec.
      * rewrite py_min_id by exact H1. now rewrite Hj.
Qed.

(** C2. The scorer never raises and its value lies in [0, 1]; with two
    empty token sets, as for two empty strings, it returns 0 instead of
    dividing by zero. *)
Theorem calculate_similarity_total_bounded (a b : string) :
  (exists q, calculate_similarity a b = Ok q /\ (0 <= q)%Q /\ (q <= 1)%Q)
  /\ (words a = ∅ /\ words b = ∅ -> calculate_similarity a b = Ok 0%Q)
  /\ calculate_similarity EmptyString EmptyString = Ok 0%Q.
Proof.
  split; [|split].
  - destruct (size (words a ∪ words b)) as [|u] eqn:Hu.
    + exists 0%Q. split; [now apply calculate_similarity_empty|].
      split; discriminate.
    + pose proof (inter_le_union (words a) (words b)) as Hle. rewrite Hu in Hle.
      destruct (ratio_bounds _ _ Hle) as [H0 H1].
      eexists. split; [apply (calculate_similarity_nonempty a b u Hu)|].
      split; [|apply py_min_le_r].
      apply py_min_nonneg; [|discriminate].
      destruct (category_match a b); [now apply boosted_nonneg | exact H0].
  - intros [Ha Hb]. apply calculate_similarity_empty.
    rewrite Ha, Hb. rewrite union_empty_l_L. apply size_empty.
  - reflexivity.
Qed.

(** C9. The scorer is commutative. *)
Theorem calculate_similarity_comm (a b : string) :
  calculate_similarity a b = calculate_similarity b a.
Proof.
  unfold calculate_similarity.
  assert (Hi : words a ∩ words b = words b ∩ words a) by apply intersection_comm_L.
  assert (Hu : words a ∪ words b = words b ∪ words a) by apply union_comm_L.
  now rewrite Hi, Hu, (category_match_comm a b).
Qed.

Lemma phone_in_both : keyword_in_both "blue phone case" "red Phone cover".
Proof.
  exists "phone". split; [simpl; tauto|]. split.
  - now exists "blue ", " case".
  - now exists "red ", " cover".
Qed.

Lemma no_keyword_in_apples : ~ keyword_in_both "red apple" "green apple".
Proof. intros H. apply category_match_spec in H. discriminate H. Qed.

(** The token sets of the sample texts, element by element. *)
Lemma token_set_listed (s : string) (l : list string) :
  words s = list_to_set l -> token_set s (list_to_set l).
Proof. intros <-. apply words_spec. Qed.

Lemma calculate_similarity_keyword_boost_witness :
  token_set "blue phone case" (list_to_set ["blue"; "phone"; "case"])
  /\ token_set "red Phone cover" (list_to_set ["red"; "phone"; "cover"])
  /\ token_set "red apple" (list_to_set ["red"; "apple"])
  /\ token_set "green apple" (list_to_set ["green"; "apple"])
  /\ (exists q,
        calculate_similarity "blue phone case" "red Phone cover" = Ok q
        /\ (q == 13 # 50)%Q)
  /\ (exists q,
        calculate_similarity "red apple" "green apple" = Ok q
        /\ (q == 1 # 3)%Q).
Proof.
  assert (H1 : token_set "blue phone case" (list_to_set ["blue"; "phone"; "case"]))
    by (apply token_set_listed; reflexivity).
  assert (H2 : token_set "red Phone cover" (list_to_set ["red"; "phone"; "cover"]))
    by (apply token_set_listed; reflexivity).
  assert (H3 : token_set "red apple" (list_to_set ["red"; "apple"]))
    by (apply token_set_listed; reflexivity).
  assert (H4 : token_set "green apple" (list_to_set ["green"; "apple"]))
    by (apply token_set_listed; reflexivity).
  repeat (split; [assumption|]). split.
  - destruct (calculate_similarity_keyword_boost _ _ _ _ H1 H2)
      as [q [Hq [Hboost _]]].
    exists q. split; [exact Hq|].
    apply (Qeq_trans _ _ _ (Hboost phone_in_both)). vm_compute. reflexivity.
  - destruct (calculate_similarity_keyword_boost _ _ _ _ H3 H4)
      as [q [Hq [_ Hplain]]].
    exists q. split; [exact Hq|].
    apply (Qeq_trans _ _ _ (Hplain no_keyword_in_apples)). vm_compute. reflexivity.
Defined.

Lemma calculate_similarity_total_bounded_witness :
  words "  " = ∅ /\ words EmptyString = ∅
  /\ calculate_similarity "  " EmptyString = Ok 0%Q.
Proof.
  split; [reflexivity|]. split; [reflexivity|].
  exact (proj1 (proj2 (calculate_similarity_total_bounded "  " EmptyString))
           (conj eq_refl eq_refl)).
Defined.

(** The keyword example of the specification: Jaccard 1/5, boosted to
    0.26; and the example of a plain score. *)
Example score_phone :
  calculate_similarity "blue phone case" "red phone cover" = Ok (13 # 50).
Proof. vm_compute. reflexivity. Qed.

Example score_apples :
  calculate_similarity "red apple" "green apple" = Ok (1 # 3).
Proof. vm_compute. reflexivity. Qed.

(* ===================================================================== *)
(** ** Properties of the embedding cache *)
(* ===================================================================== *)

Lemma get_product_embedding_hit (p : Product) (st : State) (e : string) :
  product_embeddings_cache st !! id p = Some e ->
  get_product_embedding p st = (e, st).
Proof. intros H. unfold get_product_embedding. now rewrite H. Qed.

Lemma get_product_embedding_keeps (p : Product) (st : State) (i : Z) (e : string) :
  product_embeddings_cache st !! i = Some e ->
  product_embeddings_cache (snd (get_product_embedding p st)) !! i = Some e.
Proof.
  intros H. unfold get_product_embedding.
  destruct (product_embeddings_cache st !! id p) as [c|] eqn:E; simpl; [exact H|].
  rewrite lookup_insert_ne; [exact H|]. intros Heq. rewrite <- Heq in H. congruence.
Qed.

Lemma get_product_embedding_catalog (p : Product) (st : State) :
  PRODUCTS (snd (get_product_embedding p st)) = PRODUCTS st.
Proof.
  unfold get_product_embedding.
  now destruct (product_embeddings_cache st !! id p).
Qed.

(** After a look-up the cache holds, for the identifier, the string the
    look-up returned. *)
Lemma get_product_embedding_stored (p : Product) (st : State) :
  product_embeddings_cache (snd (get_product_embedding p st)) !! id p
  = Some (fst (get_product_embedding p st)).
Proof.
  unfold get_product_embedding.
  destruct (product_embeddings_cache st !! id p) as [c|] eqn:E; simpl.
  - exact E.
  - apply lookup_insert_eq.
Qed.

Lemma run_lookups_keeps (ps : list Product) (st : State) (i : Z) (e : string) :
  product_embeddings_cache st !! i = Some e ->
  product_embeddings_cache (run_lookups ps st) !! i = Some e.
Proof.
  revert st. induction ps as [|p ps IH]; intros st H; simpl; [exact H|].
  apply IH. now apply get_product_embedding_keeps.
Qed.

(** C4. A look-up for an identifier the cache does not hold computes
    lowercase(name + " " + category + " " + description) and stores it
    under the identifier, leaving the other entries and the catalog as
    they were; every later look-up for that identifier, whatever look-ups
    happened in between and whatever the fields of the record passed,
    returns that same string and leaves cache and catalog unchanged. *)
Theorem get_product_embedding_idempotent (p : Product) (st : State) :
  product_embeddings_cache st !! id p = None ->
  let e := Str.lower (name p ++ " " ++ category p ++ " " ++ description p) in
  let st1 := snd (get_product_embedding p st) in
  fst (get_product_embedding p st) = e
  /\ product_embeddings_cache st1 = <[id p := e]> (product_embeddings_cache st)
  /\ (forall i, i <> id p ->
        product_embeddings_cache st1 !! i = product_embeddings_cache st !! i)
  /\ PRODUCTS st1 = PRODUCTS st
  /\ forall (between : list Product) (p' : Product),
       id p' = id p ->
       let st2 := run_lookups between st1 in
       get_product_embedding p' st2 = (e, st2).
Proof.
  intros Hmiss e st1.
  assert (Hfst : fst (get_product_embedding p st) = e).
  { unfold get_product_embedding. now rewrite Hmiss. }
  assert (Hcache : product_embeddings_cache st1
                   = <[id p := e]> (product_embeddings_cache st)).
  { unfold st1, get_product_embedding. now rewrite Hmiss. }
  split; [exact Hfst|]. split; [exact Hcache|].
  split; [|split].
  - intros i Hi. rewrite Hcache. now apply lookup_insert_ne.
  - apply get_product_embedding_catalog.
  - intros between p' Hid st2.
    apply get_product_embedding_hit. rewrite Hid.
    apply run_lookups_keeps. rewrite Hcache. apply lookup_insert_eq.
Qed.

Lemma get_product_embedding_idempotent_witness :
  product_embeddings_cache sample_state !! id iphone = None
  /\ fst (get_product_embedding iphone sample_state)
     = "iphone 15 electronics latest smartphone"
  /\ product_embeddings_cache (snd (get_product_embedding iphone sample_state)) !! 2%Z
     = product_embeddings_cache sample_state !! 2%Z
  /\ get_product_embedding sneaker
       (run_lookups [boots] (snd (get_product_embedding sneaker sample_state)))
     = ("red sneaker footwear running shoes",
        run_lookups [boots] (snd (get_product_embedding sneaker sample_state))).
Proof.
  split; [reflexivity|]. split; [|split].
  - exact (proj1 (get_product_embedding_idempotent iphone sample_state eq_refl)).
  - apply (proj1 (proj2 (proj2
             (get_product_embedding_idempotent iphone sample_state eq_refl)))).
    discriminate.
  - exact (proj2 (proj2 (proj2 (proj2
             (get_product_embedding_idempotent sneaker sample_state eq_refl))))
             [boots] sneaker eq_refl).
Defined.

(* ===================================================================== *)
(** ** Properties of dictionaries *)
(* ===================================================================== *)

Lemma dict_get_set_eq (k : string) (v : json) (d : Dict) :
  dict_get k (dict_set k v d) = Some v.
Proof.
  induction d as [|[k' v'] d IH]; simpl.
  - now rewrite String.eqb_refl.
  - destruct (String.eqb k k') eqn:E; simpl; rewrite E; [reflexivity | exact IH].
Qed.

Lemma dict_get_set_ne (k k' : string) (v : json) (d : Dict) :
  k <> k' -> dict_get k' (dict_set k v d) = dict_get k' d.
Proof.
  intros Hne. induction d as [|[k0 v0] d IH]; simpl.
  - apply not_eq_sym in Hne. apply String.eqb_neq in Hne. now rewrite Hne.
  - destruct (String.eqb k k0) eqn:E; simpl.
    + apply String.eqb_eq in E. subst k0.
      apply not_eq_sym in Hne. apply String.eqb_neq in Hne. now rewrite Hne.
    + destruct (String.eqb k' k0); [reflexivity | exact IH].
Qed.

Lemma dict_setdefault_present (k : string) (v : json) (d : Dict) :
  is_Some (dict_get k (dict_setdefault k v d)).
Proof.
  unfold dict_setdefault. destruct (dict_get k d) as [w|] eqn:E.
  - rewrite E. now exists w.
  - rewrite dict_get_set_eq. now exists v.
Qed.

Lemma dict_setdefault_other (k k' : string) (v : json) (d : Dict) :
  is_Some (dict_get k' d) -> is_Some (dict_get k' (dict_setdefault k v d)).
Proof.
  intros H. unfold dict_setdefault. destruct (dict_get k d) as [w|] eqn:E; [exact H|].
  destruct (String.eqb_spec k k') as [->|Hne].
  - rewrite dict_get_set_eq. now exists v.
  - now rewrite dict_get_set_ne.
Qed.

(* ===================================================================== *)
(** ** Properties of the image analyzer *)
(* ===================================================================== *)

Lemma normalize_fields_object (ks : list string) (d : Dict) :
  exists d',
    normalize_fields (JObject d) ks = Ok (JObject d')
    /\ (forall k, In k ks -> exists items, dict_get k d' = Some (JArray items))
    /\ (forall k, ~ In k ks -> dict_get k d' = dict_get k d).
Proof.
  revert d. induction ks as [|k ks IH]; intros d.
  - exists d. split; [reflexivity|]. split; [intros k []|reflexivity].
  - cbn [normalize_fields normalize_field rbind].
    set (v := if is_list (default (JArray []) (dict_get k d))
              then default (JArray []) (dict_get k d) else JArray []).
    assert (Hv : exists items, v = JArray items).
    { unfold v. destruct (default (JArray []) (dict_get k d)); simpl; eauto. }
    destruct Hv as [items Hitems].
    destruct (IH (dict_set k v d)) as [d' [Hrun [Hin Hout]]].
    exists d'. split.
    + unfold v in Hrun. unfold default in Hrun |- *.
      destruct (dict_get k d); exact Hrun.
    + split.
      * intros k0 [<-|Hk0]; [|now apply Hin].
        destruct (in_dec String.string_dec k ks) as [Hk|Hk]; [now apply Hin|].
        rewrite (Hout k Hk), dict_get_set_eq. exists items. f_equal. exact Hitems.
      * intros k0 Hk0. rewrite Hout by (intros Hk; apply Hk0; now right).
        apply dict_get_set_ne. intros ->. apply Hk0. now left.
Qed.

Section AnalyzerFacts.

Variable Image : Type.
Variable generate_content : payload Image -> provider_outcome.
Variable json_loads : string -> result json.

(** A fall-back dictionary passes the normalization unchanged. *)
Lemma normalize_fallback (s : string) :
  (try! analysis := setdefault "summary" (JString EmptyString) (JObject (fallback s)) in
   try! analysis := setdefault "category" (JString "Unknown") analysis in
   try! analysis := normalize_fields analysis list_fields in
   as_dict analysis) = Ok (fallback s).
Proof. reflexivity. Qed.

Lemma parse_reply_not_json (text : string) (e : exn) :
  json_loads (extract_json_text text) = Raise e ->
  parse_reply json_loads text
  = Ok (fallback (if Str.nonempty text then Str.take 600 text
                             else "Unable to analyze image.")).
Proof.
  intros H. unfold parse_reply. rewrite H. apply normalize_fallback.
Qed.

(** Whatever [parse_reply] returns has both text keys and five lists. *)
Lemma parse_reply_normalized (text : string) (d : Dict) :
  parse_reply json_loads text = Ok d -> normalized d.
Proof.
  unfold parse_reply.
  set (a := match json_loads (extract_json_text text) with
            | Ok a => a
            | Raise _ => _
            end).
  destruct a as [| | | | |d0]; try discriminate.
  cbn [setdefault rbind].
  set (d1 := dict_setdefault "category" (JString "Unknown")
               (dict_setdefault "summary" (JString EmptyString) d0)).
  destruct (normalize_fields_object list_fields d1) as [d' [Hrun [Hin Hout]]].
  rewrite Hrun. cbn [rbind as_dict]. intros [= <-].
  split; [|split].
  - rewrite Hout by (simpl; intuition discriminate).
    apply dict_setdefault_other, dict_setdefault_present.
  - rewrite Hout by (simpl; intuition discriminate).
    apply dict_setdefault_present.
  - exact Hin.
Qed.

Lemma fallback_normalized (s : string) : normalized (fallback s).
Proof.
  split; [now exists (JString s)|]. split; [now exists (JString "Unknown")|].
  intros k Hk. exists []. simpl in Hk.
  repeat (destruct Hk as [<-|Hk]; [reflexivity|]). destruct Hk.
Qed.

(** The guarantee the analyzer does give, for every provider outcome: a
    dictionary with both text keys present and a list under each of the
    five list keys. *)
Lemma analyze_image_normalized (enabled : bool) (image : Image) (is_url : bool) :
  exists d,
    snd (analyze_image Image generate_content json_loads enabled image is_url) = Ok d
    /\ normalized d.
Proof.
  unfold analyze_image. destruct enabled; simpl.
  - destruct (reply_text _) as [text|e]; simpl.
    + destruct (parse_reply json_loads text) as [d|e] eqn:E; simpl.
      * exists d. split; [reflexivity|]. now apply (parse_reply_normalized text).
      * eexists. split; [reflexivity|]. apply fallback_normalized.
    + eexists. split; [reflexivity|]. apply fallback_normalized.
  - eexists. split; [reflexivity|]. apply fallback_normalized.
Qed.

End AnalyzerFacts.

Lemma odd_reply_text :
  reply_text (Response (Ok (Some odd_reply))) = Ok odd_reply.
Proof. reflexivity. Qed.

Lemma odd_reply_json_text : extract_json_text odd_reply = odd_reply.
Proof. reflexivity. Qed.

(** C5, at a reply the provider can send. When the parsed reply carries a
    number under [summary] and [null] under [category], the analyzer
    returns them as they are: both keys are present and the five list
    fields are lists, but neither text field is a string. *)
Theorem analyze_image_keeps_non_string_summary
    (Image : Type) (generate_content : payload Image -> provider_outcome)
    (json_loads : string -> result json) (image : Image) :
  generate_content (Inline image) = Response (Ok (Some odd_reply)) ->
  json_loads odd_reply = Ok odd_object ->
  let d := [ ("summary", JNumber 123); ("category", JNull);
             ("colors", JArray []); ("materials", JArray []);
             ("style", JArray []); ("objects", JArray []);
             ("suggested_tags", JArray []) ] in
  analyze_image Image generate_content json_loads true image false
  = ([Inline image], Ok d)
  /\ normalized d
  /\ ~ well_typed d.
Proof.
  intros Hgc Hloads d. split; [|split].
  - unfold analyze_image, analyze_body. cbn [negb].
    rewrite Hgc, odd_reply_text. cbn [rbind].
    unfold parse_reply. rewrite odd_reply_json_text, Hloads. reflexivity.
  - split; [now exists (JNumber 123)|]. split; [now exists JNull|].
    intros k Hk. exists []. simpl in Hk.
    repeat (destruct Hk as [<-|Hk]; [reflexivity|]). destruct Hk.
  - intros [[s Hs] _]. discriminate Hs.
Qed.

Lemma analyze_image_keeps_non_string_summary_witness :
  odd_provider (Inline tt) = Response (Ok (Some odd_reply))
  /\ sample_loads odd_reply = Ok odd_object
  /\ snd (analyze_image unit odd_provider sample_loads true tt false)
     = Ok [ ("summary", JNumber 123); ("category", JNull);
            ("colors", JArray []); ("materials", JArray []);
            ("style", JArray []); ("objects", JArray []);
            ("suggested_tags", JArray []) ].
Proof.
  split; [reflexivity|]. split; [reflexivity|].
  exact (f_equal snd
           (proj1 (analyze_image_keeps_non_string_summary
                     unit odd_provider sample_loads tt eq_refl eq_refl))).
Defined.

(** C7. The analyzer always returns a dictionary. Without a credential it
    returns the offline description and sends nothing to the provider.
    With one, an exception of the provider call or of the handling of its
    reply gives the last-resort description, and a reply that is not JSON
    gives the description wrapping the reply text; each of these has the
    category "Unknown" and five empty lists. *)
Theorem analyze_image_never_raises
    (Image : Type) (generate_content : payload Image -> provider_outcome)
    (json_loads : string -> result json)
    (GEMINI_API_KEY : option string) (image : Image) (is_url : bool) :
  let enabled := GEMINI_ENABLED GEMINI_API_KEY in
  let out := analyze_image Image generate_content json_loads enabled image is_url in
  let sent := if is_url then MimeData "image/jpeg" image else Inline image in
  (exists d, snd out = Ok d)
  /\ (enabled = false ->
      out = ([], Ok (fallback "Image uploaded. AI analysis is unavailable in offline mode.")))
  /\ (enabled = true ->
      forall e,
        snd (analyze_body Image generate_content json_loads image is_url) = Raise e ->
        out = ([sent], Ok (fallback "Unable to analyze image at this time.")))
  /\ (enabled = true ->
      forall text e,
        reply_text (generate_content sent) = Ok text ->
        json_loads (extract_json_text text) = Raise e ->
        out = ([sent], Ok (fallback (if Str.nonempty text then Str.take 600 text
                                     else "Unable to analyze image."))))
  /\ (forall s,
        dict_get "category" (fallback s) = Some (JString "Unknown")
        /\ forall k, In k list_fields -> dict_get k (fallback s) = Some (JArray [])).
Proof.
  intros enabled out sent. split; [|split; [|split; [|split]]].
  - destruct (analyze_image_normalized Image generate_content json_loads
                enabled image is_url) as [d [Hd _]].
    now exists d.
  - intros Hoff. unfold out, analyze_image. now rewrite Hoff.
  - intros Hon e He. unfold out, analyze_image. rewrite Hon. cbn [negb].
    unfold analyze_body in He |- *. cbn [snd] in He. fold sent in He |- *.
    now rewrite He.
  - intros Hon text e Htext Hjson. unfold out, analyze_image. rewrite Hon.
    cbn [negb]. unfold analyze_body. fold sent. rewrite Htext. cbn [rbind].
    now rewrite (parse_reply_not_json json_loads text e Hjson).
  - intros s. split; [reflexivity|].
    intros k Hk. simpl in Hk.
    repeat (destruct Hk as [<-|Hk]; [reflexivity|]). destruct Hk.
Qed.

Lemma analyze_image_never_raises_witness :
  analyze_image unit failing_provider sample_loads (GEMINI_ENABLED None) tt false
  = ([], Ok (fallback "Image uploaded. AI analysis is unavailable in offline mode."))
  /\ analyze_image unit failing_provider sample_loads (GEMINI_ENABLED (Some "key")) tt false
     = ([Inline tt], Ok (fallback "Unable to analyze image at this time."))
  /\ analyze_image unit chatty_provider sample_loads (GEMINI_ENABLED (Some "key")) tt false
     = ([Inline tt], Ok (fallback "Sorry, I cannot describe this image.")).
Proof.
  split; [|split].
  - exact (proj1 (proj2 (analyze_image_never_raises
                           unit failing_provider sample_loads None tt false))
             eq_refl).
  - exact (proj1 (proj2 (proj2 (analyze_image_never_raises
                                  unit failing_provider sample_loads (Some "key") tt false)))
             eq_refl ProviderError eq_refl).
  - exact (proj1 (proj2 (proj2 (proj2 (analyze_image_never_raises
                                  unit chatty_provider sample_loads (Some "key") tt false))))
             eq_refl "Sorry, I cannot describe this image." JSONDecodeError
             eq_refl eq_refl).
Defined.

(* ===================================================================== *)
(** ** Properties of the query embedder *)
(* ===================================================================== *)

Lemma lstrip_first (s t : string) (c : ascii) :
  Str.lstrip s = String c t -> Str.isspace c = false.
Proof.
  induction s as [|a s IH]; simpl; [discriminate|].
  destruct (Str.isspace a) eqn:E; [exact IH|].
  intros [= <- _]. exact E.
Qed.

Lemma rstrip_first (s t : string) (c : ascii) :
  Str.rstrip s = String c t -> exists s', s = String c s'.
Proof.
  destruct s as [|a s]; simpl; [discriminate|].
  destruct (Str.rstrip s); [destruct (Str.isspace a)|];
    intros [= <- _]; now exists s.
Qed.

Lemma rstrip_last (s t : string) (c : ascii) :
  Str.rstrip s = t ++ String c EmptyString -> Str.isspace c = false.
Proof.
  revert t. induction s as [|a s IH]; intros t; simpl.
  - destruct t; discriminate.
  - destruct (Str.rstrip s) as [|b r] eqn:Er.
    + destruct (Str.isspace a) eqn:Ea.
      * destruct t; discriminate.
      * destruct t as [|x t]; simpl.
        -- intros H. injection H as <-. exact Ea.
        -- intros H. injection H as _ H. destruct t; discriminate.
    + destruct t as [|x t]; simpl.
      * intros H. injection H as _ H. discriminate.
      * intros H. injection H as _ H. now apply (IH t).
Qed.

Lemma strip_trimmed (s : string) : trimmed (Str.strip s).
Proof.
  unfold trimmed, Str.strip. intros c [[t Ht]|[t Ht]].
  - destruct (rstrip_first _ _ _ Ht) as [s' Hs']. now apply (lstrip_first s s').
  - now apply (rstrip_last _ _ _ Ht).
Qed.

Lemma str_items_strings (l : list string) :
  str_items (List.filter truthy (map JString l)) = Ok (List.filter Str.nonempty l).
Proof.
  induction l as [|s l IH]; simpl; [reflexivity|].
  destruct (Str.nonempty s); simpl; now rewrite IH.
Qed.

Lemma joined_list (repr : json -> string) (analysis : Dict) (k : string)
    (items : list json) :
  default (JArray []) (dict_get k analysis) = JArray items ->
  joined repr analysis k = Ok (JString (Str.join " " (map (py_str repr) items))).
Proof. intros H. unfold joined. now rewrite H. Qed.

(** C6. For a description whose summary and category are strings and
    whose five list fields are lists, the embedding is the trimmed,
    single-space join of the non-empty ones among summary, category and
    the space-joined stringified elements of colors, materials, style,
    objects and suggested_tags, in that order; it depends on the
    description alone. With an empty materials list it is the string
    built from the six other fields. *)
Theorem build_query_embedding_joins
    (repr : json -> string) (analysis : Dict) (summary category : string)
    (colors materials style objects suggested_tags : list json) :
  default (JString EmptyString) (dict_get "summary" analysis) = JString summary ->
  default (JString EmptyString) (dict_get "category" analysis) = JString category ->
  default (JArray []) (dict_get "colors" analysis) = JArray colors ->
  default (JArray []) (dict_get "materials" analysis) = JArray materials ->
  default (JArray []) (dict_get "style" analysis) = JArray style ->
  default (JArray []) (dict_get "objects" analysis) = JArray objects ->
  default (JArray []) (dict_get "suggested_tags" analysis) = JArray suggested_tags ->
  let text items := Str.join " " (map (py_str repr) items) in
  build_query_embedding repr analysis
  = Ok (Str.strip (Str.join " " (List.filter Str.nonempty
          [summary; category; text colors; text materials; text style;
           text objects; text suggested_tags])))
  /\ (materials = [] ->
      build_query_embedding repr analysis
      = Ok (Str.strip (Str.join " " (List.filter Str.nonempty
              [summary; category; text colors; text style;
               text objects; text suggested_tags]))))
  /\ (forall r, build_query_embedding repr analysis = Ok r -> trimmed r).
Proof.
  intros Hs Hc Hco Hm Hst Ho Ht text.
  assert (Hmain : build_query_embedding repr analysis
                  = Ok (Str.strip (Str.join " " (List.filter Str.nonempty
                          [summary; category; text colors; text materials;
                           text style; text objects; text suggested_tags])))).
  { unfold build_query_embedding.
    rewrite Hs, Hc.
    rewrite (joined_list repr analysis "colors" colors Hco).
    rewrite (joined_list repr analysis "materials" materials Hm).
    rewrite (joined_list repr analysis "style" style Hst).
    rewrite (joined_list repr analysis "objects" objects Ho).
    rewrite (joined_list repr analysis "suggested_tags" suggested_tags Ht).
    cbn [rbind]. fold (text colors) (text materials) (text style)
                      (text objects) (text suggested_tags).
    change [JString summary; JString category; JString (text colors);
            JString (text materials); JString (text style);
            JString (text objects); JString (text suggested_tags)]
      with (map JString [summary; category; text colors; text materials;
                         text style; text objects; text suggested_tags]).
    now rewrite str_items_strings. }
  split; [exact Hmain|]. split.
  - intros ->. rewrite Hmain. reflexivity.
  - intros r Hr. rewrite Hmain in Hr. injection Hr as <-. apply strip_trimmed.
Qed.

Lemma build_query_embedding_joins_witness :
  build_query_embedding sample_repr sample_description
  = Ok "A red running shoe. Footwear red white sporty shoe sneaker running"
  /\ trimmed "A red running shoe. Footwear red white sporty shoe sneaker running".
Proof.
  pose (H := build_query_embedding_joins sample_repr sample_description
               "A red running shoe." "Footwear"
               [JString "red"; JString "white"] []
               [JString "sporty"] [JString "shoe"]
               [JString "sneaker"; JString "running"]
               eq_refl eq_refl eq_refl eq_refl eq_refl eq_refl eq_refl).
  split.
  - exact (proj1 (proj2 H) eq_refl).
  - exact (proj2 (proj2 H) _ (proj1 (proj2 H) eq_refl)).
Defined.

(* ===================================================================== *)
(** ** Properties of the product listing *)
(* ===================================================================== *)

Lemma lower_char_idem (c : ascii) :
  Str.lower_char (Str.lower_char c) = Str.lower_char c.
Proof. destruct c as [[] [] [] [] [] [] [] []]; reflexivity. Qed.

Lemma ascii_small_letter_lower (x y : ascii) :
  (65 <= Str.code x <= 90)%N -> Str.code y = (Str.code x + 32)%N ->
  Str.lower_char x = y /\ Str.lower_char y = y.
Proof.
  intros Hx Hy. unfold Str.lower_char, Str.isupper.
  assert (Ey : y = ascii_of_N (Str.code x + 32))
    by (rewrite <- Hy; symmetry; apply ascii_N_embedding).
  rewrite Hy. set (n := Str.code x) in *.
  destruct (N.leb_spec 65 n); [|lia]. destruct (N.leb_spec n 90); [|lia].
  destruct (N.leb_spec (n + 32) 90); [lia|].
  destruct (N.leb_spec 192 (n + 32)); [lia|].
  rewrite andb_false_r. cbn [andb orb]. now split.
Qed.

Lemma ascii_letter_pair_lower (x y : ascii) :
  ascii_letter_pair x y -> Str.lower_char x = Str.lower_char y.
Proof.
  intros [[Hx Hy]|[Hy Hx]].
  - destruct (ascii_small_letter_lower x y Hx Hy) as [-> ->]. reflexivity.
  - destruct (ascii_small_letter_lower y x Hy Hx) as [-> ->]. reflexivity.
Qed.

Lemma ascii_case_variant_lower (s t : string) :
  ascii_case_variant s t -> Str.lower s = Str.lower t.
Proof.
  induction 1 as [|x y s t Hxy _ IH]; simpl; [reflexivity|].
  rewrite IH. destruct Hxy as [->|Hxy]; [reflexivity|].
  now rewrite (ascii_letter_pair_lower x y Hxy).
Qed.

Lemma lower_nonempty (s : string) : Str.nonempty (Str.lower s) = Str.nonempty s.
Proof. now destruct s. Qed.

Lemma same_lower_nonempty (s t : string) :
  Str.lower s = Str.lower t -> Str.nonempty s = Str.nonempty t.
Proof.
  intros H. rewrite <- (lower_nonempty s), <- (lower_nonempty t). now rewrite H.
Qed.

Lemma same_lower_listing (c c' : string) (st : State) :
  Str.lower c' = Str.lower c ->
  get_products (Some c') st = get_products (Some c) st.
Proof.
  intros H. unfold get_products.
  now rewrite (same_lower_nonempty c' c H), H.
Qed.

Lemma Footwear_footwear : ascii_case_variant "Footwear" "footwear".
Proof.
  constructor; [right; left; unfold Str.code; cbn; lia|].
  repeat (constructor; [now left|]). constructor.
Qed.

Lemma footwear_Footwear : ascii_case_variant "footwear" "Footwear".
Proof.
  constructor; [right; right; unfold Str.code; cbn; lia|].
  repeat (constructor; [now left|]). constructor.
Qed.

Lemma filter_caseless (c : string) (l : list Product) :
  List.filter (fun p => String.eqb (Str.lower (category p)) (Str.lower c)) l
  = filter (fun p => caseless_eq (category p) c) l.
Proof.
  induction l as [|p l IH]; [reflexivity|].
  rewrite filter_cons. cbn [List.filter]. rewrite IH.
  destruct (String.eqb_spec (Str.lower (category p)) (Str.lower c)) as [E|E];
    destruct (decide (caseless_eq (category p) c)) as [D|D];
    try reflexivity; contradiction.
Qed.

(** C8. For a non-empty category query the listing holds exactly the
    catalog products whose category has the same lower-case form as the
    query, in catalog order, and their number; a query with the same
    lower-case form, and so one that differs only in the case of ASCII
    letters, gives the same listing. *)
Theorem get_products_by_category (c : string) (st : State) :
  Str.nonempty c = true ->
  products (get_products (Some c) st)
  = filter (fun p => caseless_eq (category p) c) (PRODUCTS st)
  /\ count (get_products (Some c) st) = length (products (get_products (Some c) st))
  /\ (forall c', Str.lower c' = Str.lower c ->
                 get_products (Some c') st = get_products (Some c) st)
  /\ (forall c', ascii_case_variant c c' ->
                 get_products (Some c') st = get_products (Some c) st).
Proof.
  intros Hc. split; [|split; [|split]].
  - unfold get_products. rewrite Hc. cbn [products]. apply filter_caseless.
  - unfold get_products. now rewrite Hc.
  - intros c' Hcc'. now apply same_lower_listing.
  - intros c' Hcc'. apply same_lower_listing. symmetry.
    now apply ascii_case_variant_lower.
Qed.

Lemma get_products_by_category_witness :
  products (get_products (Some "Footwear") sample_state) = [sneaker; boots]
  /\ count (get_products (Some "Footwear") sample_state) = 2%nat
  /\ get_products (Some "footwear") sample_state
     = get_products (Some "Footwear") sample_state.
Proof.
  pose proof (get_products_by_category "Footwear" sample_state eq_refl) as H.
  split; [exact (proj1 H)|]. split; [exact (proj1 (proj2 H))|].
  exact (proj2 (proj2 (proj2 H)) "footwear" Footwear_footwear).
Defined.

(** C8 as stated, for every query string: the category [FUSSBALL] is the
    capital form of the query spelt with a sharp s, so the two differ
    only in letter case; the capital query lists the product, the other
    one lists nothing, because [lower] leaves the sharp s alone. *)
Lemma get_products_case_pair_differs :
  upper Fussball = Some "FUSSBALL"
  /\ products (get_products (Some "FUSSBALL") ball_shop) = [match_ball]
  /\ products (get_products (Some Fussball) ball_shop) = []
  /\ ~ (forall (c c' : string) (st : State),
          Str.nonempty c = true -> upper c = Some c' ->
          get_products (Some c') st = get_products (Some c) st).
Proof.
  split; [reflexivity|]. split; [reflexivity|]. split; [reflexivity|].
  intros H. specialize (H Fussball "FUSSBALL" ball_shop eq_refl eq_refl).
  discriminate H.
Qed.

(** C10. A category parameter that is present but empty gives the same
    listing as no parameter: the whole catalog and its length. *)
Theorem get_products_empty_category (st : State) :
  get_products (Some EmptyString) st = get_products None st
  /\ products (get_products (Some EmptyString) st) = PRODUCTS st
  /\ count (get_products (Some EmptyString) st) = length (PRODUCTS st).
Proof. repeat split; reflexivity. Qed.

(* ===================================================================== *)
(** ** Properties of the sort *)
(* ===================================================================== *)

Lemma insert_desc_perm (x : Ranked) (l : list Ranked) :
  Permutation (x :: l) (insert_desc x l).
Proof.
  induction l as [|y l IH]; simpl; [reflexivity|].
  destruct (Qle_bool (similarity y) (similarity x)); [reflexivity|].
  rewrite perm_swap. now apply perm_skip.
Qed.

Lemma sort_desc_perm (l : list Ranked) : Permutation l (sort_desc l).
Proof.
  induction l as [|x l IH]; simpl; [reflexivity|].
  rewrite <- insert_desc_perm. now apply perm_skip.
Qed.

Lemma insert_desc_descending (x : Ranked) (l : list Ranked) :
  descending l -> descending (insert_desc x l).
Proof.
  unfold descending. induction l as [|y l IH]; intros Hl; simpl.
  - repeat constructor.
  - apply StronglySorted_inv in Hl as [Hl Hy].
    destruct (Qle_bool (similarity y) (similarity x)) eqn:E.
    + apply Qle_bool_iff in E. constructor.
      * now constructor.
      * constructor; [exact E|].
        eapply List.Forall_impl; [|exact Hy]. intros z Hz. simpl in Hz.
        now apply Qle_trans with (similarity y).
    + assert (Hlt : (similarity x < similarity y)%Q).
      { apply Qnot_le_lt. rewrite <- Qle_bool_iff. congruence. }
      constructor; [now apply IH|].
      apply (Permutation_Forall (insert_desc_perm x l)).
      constructor; [now apply Qlt_le_weak | exact Hy].
Qed.

Lemma sort_desc_descending (l : list Ranked) : descending (sort_desc l).
Proof.
  induction l as [|x l IH]; simpl; [constructor|].
  now apply insert_desc_descending.
Qed.

Lemma with_score_insert (q : Q) (x : Ranked) (l : list Ranked) :
  with_score q (insert_desc x l) = with_score q (x :: l).
Proof.
  unfold with_score. induction l as [|y l IH]; [reflexivity|].
  cbn [insert_desc].
  destruct (Qle_bool (similarity y) (similarity x)) eqn:E; [reflexivity|].
  cbn [List.filter] in IH |- *. rewrite IH.
  destruct (Qeq_bool (similarity x) q) eqn:Ex; [|reflexivity].
  destruct (Qeq_bool (similarity y) q) eqn:Ey; [|reflexivity].
  apply Qeq_bool_iff in Ex, Ey.
  assert (Hle : Qle_bool (similarity y) (similarity x) = true).
  { apply Qle_bool_iff. rewrite Ex, Ey. apply Qle_refl. }
  congruence.
Qed.

Lemma sort_desc_keeps_tie_order (l : list Ranked) : keeps_tie_order l (sort_desc l).
Proof.
  intros q. induction l as [|x l IH]; [reflexivity|].
  cbn [sort_desc]. rewrite with_score_insert.
  unfold with_score in IH |- *. cbn [List.filter]. now rewrite IH.
Qed.

Lemma descending_take (n : nat) (l : list Ranked) :
  descending l -> descending (take n l).
Proof.
  unfold descending. revert n. induction l as [|x l IH]; intros n Hl.
  - destruct n; constructor.
  - destruct n as [|n]; [constructor|].
    apply StronglySorted_inv in Hl as [Hl Hx]. cbn [take]. constructor.
    + now apply IH.
    + now apply Forall_take.
Qed.

(* ===================================================================== *)
(** ** Properties of the search orchestrator *)
(* ===================================================================== *)

Lemma similarity_defined (a b : string) :
  exists q, calculate_similarity a b = Ok q.
Proof.
  destruct (size (words a ∪ words b)) as [|u] eqn:Hu.
  - exists 0%Q. now apply calculate_similarity_empty.
  - eexists. apply (calculate_similarity_nonempty a b u Hu).
Qed.

(** The loop never raises; it pairs every product, in catalog order, with
    its rounded score, only adds entries to the cache and leaves the
    catalog alone. *)
Lemma score_products_spec (image_embedding : string) (ps : list Product) (st : State) :
  exists scored st',
    score_products image_embedding ps st = (Ok scored, st')
    /\ Forall2 (scored_from image_embedding st') ps scored
    /\ PRODUCTS st' = PRODUCTS st
    /\ (forall i e, product_embeddings_cache st !! i = Some e ->
                   product_embeddings_cache st' !! i = Some e).
Proof.
  revert st. induction ps as [|p ps IH]; intros st.
  - exists [], st. repeat split; [constructor | auto].
  - cbn [score_products].
    destruct (get_product_embedding p st) as [e st1] eqn:G.
    destruct (similarity_defined image_embedding e) as [q Hq].
    rewrite Hq.
    destruct (IH st1) as [scored [st' [Hrun [Hall [Hcat Hkeep]]]]].
    rewrite Hrun. cbn [rbind].
    exists ({| product := p; similarity := round4 q |} :: scored), st'.
    assert (Hst1 : st1 = snd (get_product_embedding p st)) by now rewrite G.
    assert (He : e = fst (get_product_embedding p st)) by now rewrite G.
    split; [reflexivity|]. split; [|split].
    + constructor; [|exact Hall].
      split; [reflexivity|]. exists q. split; [|reflexivity].
      rewrite (get_product_embedding_hit p st' e); [exact Hq|].
      apply Hkeep. rewrite Hst1, He. apply get_product_embedding_stored.
    + rewrite Hcat, Hst1. apply get_product_embedding_catalog.
    + intros i e' Hi. apply Hkeep. rewrite Hst1.
      now apply get_product_embedding_keeps.
Qed.

Lemma round_half_even_nearest (x : Q) :
  (inject_Z (round_half_even x) - (1 # 2) <= x
   /\ x <= inject_Z (round_half_even x) + (1 # 2))%Q.
Proof.
  unfold round_half_even.
  pose proof (Qfloor_le x) as Hlo. pose proof (Qlt_floor x) as Hhi.
  rewrite inject_Z_plus in Hhi. change (inject_Z 1) with 1%Q in Hhi.
  destruct (x - inject_Z (Qfloor x) ?= 1 # 2)%Q eqn:E.
  - apply Qeq_alt in E. destruct (Z.even (Qfloor x)).
    + split; lra.
    + rewrite inject_Z_plus. change (inject_Z 1) with 1%Q. split; lra.
  - apply Qlt_alt in E. split; lra.
  - apply Qgt_alt in E. rewrite inject_Z_plus. change (inject_Z 1) with 1%Q.
    split; lra.
Qed.

(** [round4 x] is a multiple of 1/10000 at distance at most 1/20000
    from [x]. *)
Lemma round4_nearest (x : Q) :
  (exists k, round4 x = k # 10000)
  /\ (round4 x - (1 # 20000) <= x /\ x <= round4 x + (1 # 20000))%Q.
Proof.
  split; [now exists (round_half_even (x * 10000))|].
  unfold round4. destruct (round_half_even_nearest (x * 10000)) as [H1 H2].
  rewrite (Qmake_Qdiv (round_half_even (x * 10000)) 10000).
  set (k := inject_Z (round_half_even (x * 10000))) in *.
  unfold Qdiv. change (/ inject_Z (Z.pos 10000))%Q with (1 # 10000)%Q.
  split; lra.
Qed.

Lemma same_id_same_product (l : list Product) (p p' : Product) :
  NoDup (map id l) -> In p l -> In p' l -> id p = id p' -> p = p'.
Proof.
  induction l as [|x l IH]; intros Hnd Hp Hp' Hid; [destruct Hp|].
  cbn [map] in Hnd. apply NoDup_cons in Hnd as [Hx Hnd].
  assert (Hin : forall y, In y l -> id y ∈ map id l).
  { intros y Hy. apply list_elem_of_In. now apply in_map. }
  destruct Hp as [<-|Hp], Hp' as [<-|Hp'].
  - reflexivity.
  - exfalso. apply Hx. rewrite Hid. now apply Hin.
  - exfalso. apply Hx. rewrite <- Hid. now apply Hin.
  - now apply IH.
Qed.

Lemma get_product_embedding_coherent (p : Product) (st : State) :
  NoDup (map id (PRODUCTS st)) -> coherent st -> In p (PRODUCTS st) ->
  fst (get_product_embedding p st) = product_text p
  /\ coherent (snd (get_product_embedding p st)).
Proof.
  intros Hnd Hco Hp. unfold get_product_embedding.
  destruct (product_embeddings_cache st !! id p) as [e|] eqn:E; cbn [fst snd].
  - split; [now apply Hco | exact Hco].
  - split; [reflexivity|].
    intros p' e' Hp' He'. cbn [PRODUCTS product_embeddings_cache] in Hp', He'.
    destruct (decide (id p = id p')) as [Hid|Hid].
    + rewrite Hid, lookup_insert_eq in He'. injection He' as <-.
      now rewrite (same_id_same_product _ p p' Hnd Hp Hp' Hid).
    + rewrite lookup_insert_ne in He' by exact Hid. now apply Hco.
Qed.

(** With unique identifiers and a coherent cache, as at start-up, every
    product is scored against its own embedding. *)
Lemma score_products_own_text (image_embedding : string) (ps : list Product)
    (st : State) :
  NoDup (map id (PRODUCTS st)) -> coherent st ->
  Forall (fun p => In p (PRODUCTS st)) ps ->
  exists scored st',
    score_products image_embedding ps st = (Ok scored, st')
    /\ coherent st'
    /\ PRODUCTS st' = PRODUCTS st
    /\ Forall2 (fun p r =>
                  product r = p
                  /\ exists q,
                       calculate_similarity image_embedding (product_text p) = Ok q
                       /\ similarity r = round4 q) ps scored.
Proof.
  revert st. induction ps as [|p ps IH]; intros st Hnd Hco Hps.
  - exists [], st. repeat split; [exact Hco | constructor].
  - apply Forall_cons in Hps as [Hp Hps]. cbn [score_products].
    destruct (get_product_embedding_coherent p st Hnd Hco Hp) as [He Hco1].
    pose proof (get_product_embedding_catalog p st) as Hcat1.
    destruct (get_product_embedding p st) as [e st1]. cbn [fst snd] in *.
    subst e.
    destruct (similarity_defined image_embedding (product_text p)) as [q Hq].
    rewrite Hq.
    rewrite <- Hcat1 in Hnd, Hps.
    destruct (IH st1 Hnd Hco1 Hps) as [scored [st' [Hrun [Hco' [Hcat' Hall]]]]].
    rewrite Hrun. cbn [rbind].
    exists ({| product := p; similarity := round4 q |} :: scored), st'.
    split; [reflexivity|]. split; [exact Hco'|]. split; [congruence|].
    constructor; [|exact Hall]. split; [reflexivity|]. now exists q.
Qed.

Lemma round4_rounded (q : Q) : rounded_to_4 q (round4 q).
Proof. exact (round4_nearest q). Qed.

Lemma scored_from_rounded (image_embedding : string) (st : State)
    (p : Product) (r : Ranked) :
  scored_from image_embedding st p r -> scored_rounded image_embedding st p r.
Proof.
  intros [Hp [q [Hq Hr]]]. split; [exact Hp|]. exists q. split; [exact Hq|].
  rewrite Hr. apply round4_rounded.
Qed.

(** C3. A request that ends in the input stage gets that stage's
    response. A request that passes it, with an analysis and a query
    embedding, gets a success response whose result list is the first 20
    entries of the stable descending sort of the list pairing each
    catalog product, in catalog order, with its score rounded to 4
    decimals, and whose total is the length of that list; over an empty
    catalog this is the empty list and 0. *)
Theorem search_products_ranking
    (Image : Type) (generate_content : payload Image -> provider_outcome)
    (json_loads : string -> result json) (repr : json -> string)
    (GEMINI_API_KEY : option string) (req : request Image) (st : State) :
  let read := read_query Image generate_content json_loads repr GEMINI_API_KEY in
  let search := search_products Image generate_content json_loads repr GEMINI_API_KEY in
  (forall early, read req = inl early -> search req st = (early, st))
  /\ (forall image_analysis image_embedding,
        read req = inr (image_analysis, image_embedding) ->
        (exists scored sorted st',
            let results := take 20 sorted in
            search req st = (Success image_analysis results (length results), st')
            /\ Forall2 (scored_rounded image_embedding st') (PRODUCTS st) scored
            /\ Permutation scored sorted
            /\ descending sorted
            /\ keeps_tie_order scored sorted
            /\ descending results
            /\ (length results <= 20)%nat
            /\ PRODUCTS st' = PRODUCTS st)
        /\ (PRODUCTS st = [] ->
            search req st = (Success image_analysis [] 0, st))).
Proof.
  intros read search. split.
  - intros early H. unfold search, search_products. fold read. now rewrite H.
  - intros a emb H.
    assert (Hs : search req st = rank_products a emb st).
    { unfold search, search_products. fold read. now rewrite H. }
    split.
    + destruct (score_products_spec emb (PRODUCTS st) st)
        as [scored [st' [Hrun [Hall [Hcat _]]]]].
      exists scored, (sort_desc scored), st'. cbn zeta.
      split; [|split; [|split; [|split; [|split; [|split; [|split]]]]]].
      * rewrite Hs. unfold rank_products. now rewrite Hrun.
      * apply (Forall2_impl _ _ _ _ Hall). intros p r. apply scored_from_rounded.
      * apply sort_desc_perm.
      * apply sort_desc_descending.
      * apply sort_desc_keeps_tie_order.
      * apply descending_take, sort_desc_descending.
      * rewrite length_take. lia.
      * exact Hcat.
    + intros Hempty. rewrite Hs. unfold rank_products. rewrite Hempty.
      reflexivity.
Qed.

(** The sample upload over the three-product catalog: the sneaker first
    with the boosted 0.52, the boots with 13/120 rounded to 0.1083, the
    phone last with 0; and the same upload over the empty catalog. *)
Lemma search_products_ranking_witness :
  (exists scored sorted st',
      search_products unit shoe_provider sample_loads sample_repr (Some "key")
        shoe_upload sample_state
      = (Success sample_description (take 20 sorted) (length (take 20 sorted)), st')
      /\ take 20 sorted
         = [ {| product := sneaker; similarity := 5200 # 10000 |};
             {| product := boots; similarity := 1083 # 10000 |};
             {| product := iphone; similarity := 0 # 10000 |} ]
      /\ Forall2 (scored_rounded
                    "A red running shoe. Footwear red white sporty shoe sneaker running"
                    st')
           [iphone; sneaker; boots] scored
      /\ Permutation scored sorted
      /\ descending sorted
      /\ keeps_tie_order scored sorted)
  /\ search_products unit shoe_provider sample_loads sample_repr (Some "key")
       shoe_upload empty_catalog
     = (Success sample_description [] 0, empty_catalog).
Proof.
  pose proof (search_products_ranking unit shoe_provider sample_loads sample_repr
                (Some "key") shoe_upload) as H.
  split.
  - destruct (proj1 (proj2 (H sample_state) _ _ eq_refl))
      as [scored [sorted [st' [Hs [Hall [Hperm [Hdesc [Hties _]]]]]]]].
    exists scored, sorted, st'. split; [exact Hs|]. split; [|now repeat split].
    assert (E : fst (search_products unit shoe_provider sample_loads sample_repr
                       (Some "key") shoe_upload sample_state)
                = Success sample_description
                    [ {| product := sneaker; similarity := 5200 # 10000 |};
                      {| product := boots; similarity := 1083 # 10000 |};
                      {| product := iphone; similarity := 0 # 10000 |} ] 3)
      by (vm_compute; reflexivity).
    rewrite Hs in E. cbn [fst] in E. now injection E.
  - exact (proj2 (proj2 (H empty_catalog) _ _ eq_refl) eq_refl).
Defined.

(** C3 as stated, for every request: an upload with an allowed name and an
    image that decodes, which the provider describes with a number under
    [summary], is answered with status 500 over the empty catalog, and a
    request without an image with status 400; neither is the success
    response with no results that the empty catalog is said to yield. *)
Lemma search_empty_catalog_not_always_success :
  fst (search_products unit odd_provider sample_loads sample_repr (Some "key")
         shoe_upload empty_catalog)
  = Error 500 (SearchFailed TypeError)
  /\ fst (search_products unit odd_provider sample_loads sample_repr (Some "key")
            NoImage empty_catalog)
     = Error 400 NoImageOrUrl
  /\ ~ (forall req : request unit,
          exists analysis,
            fst (search_products unit odd_provider sample_loads sample_repr
                   (Some "key") req empty_catalog)
            = Success analysis [] 0).
Proof.
  split; [vm_compute; reflexivity|]. split; [vm_compute; reflexivity|].
  intros H. destruct (H shoe_upload) as [analysis Ha].
  vm_compute in Ha. discriminate Ha.
Qed.

(** The scenario of the specification, with two more products: the
    sneaker comes first with the boosted score 0.52, the boots follow with
    0.1083, the phone is last with 0. *)
Example search_sample_catalog :
  fst (search_products unit shoe_provider sample_loads sample_repr (Some "key")
         shoe_upload sample_state)
  = Success sample_description
      [ {| product := sneaker; similarity := 5200 # 10000 |};
        {| product := boots; similarity := 1083 # 10000 |};
        {| product := iphone; similarity := 0 # 10000 |} ] 3.
Proof. vm_compute. reflexivity. Qed.

(** A reply with a number under [summary] makes the query embedder raise,
    and the upload request ends as a search failure. *)
Example search_odd_reply :
  search_products unit odd_provider sample_loads sample_repr (Some "key")
    shoe_upload sample_state
  = (Error 500 (SearchFailed TypeError), sample_state).
Proof. vm_compute. reflexivity. Qed.

(** The end-to-end scenario of the specification: a one-product catalog
    queried with that product's own embedding scores 1. *)
Example search_own_embedding :
  calculate_similarity "red sneaker footwear running shoes"
    (fst (get_product_embedding sneaker
            {| PRODUCTS := [sneaker]; product_embeddings_cache := ∅ |}))
  = Ok 1%Q.
Proof. vm_compute. reflexivity. Qed.

(* ===================================================================== *)
(** ** Further properties of the similarity scorer *)
(* ===================================================================== *)

Lemma lower_idem (s : string) : Str.lower (Str.lower s) = Str.lower s.
Proof.
  induction s as [|c s IH]; simpl; [reflexivity|].
  now rewrite lower_char_idem, IH.
Qed.

Lemma size_zero_iff (X : gset string) : size X = O <-> X = ∅.
Proof. rewrite size_empty_iff. apply leibniz_equiv_iff. Qed.

Lemma py_min_cases (a b : Q) :
  (py_min a b = a /\ (a <= b)%Q) \/ (py_min a b = b /\ (b < a)%Q).
Proof.
  unfold py_min. destruct (Qle_bool a b) eqn:E.
  - left. split; [reflexivity | now apply Qle_bool_iff].
  - right. split; [reflexivity|]. apply Qnot_le_lt.
    rewrite <- Qle_bool_iff. congruence.
Qed.

Lemma ratio_zero (n m : nat) :
  (Z.of_nat n # Pos.of_nat (S m) == 0)%Q <-> n = O.
Proof.
  unfold Qeq. cbn [Qnum Qden]. rewrite Z.mul_0_l, Z.mul_1_r. lia.
Qed.

Lemma ratio_one (m : nat) : (Z.of_nat (S m) # Pos.of_nat (S m) == 1)%Q.
Proof.
  unfold Qeq. cbn [Qnum Qden]. rewrite Zpos_of_nat_succ. lia.
Qed.

(** X1. A text with at least one token scores 1 against itself. *)
Theorem calculate_similarity_self (a : string) :
  words a <> ∅ ->
  exists q, calculate_similarity a a = Ok q /\ (q == 1)%Q.
Proof.
  intros Hne.
  assert (Hi : words a ∩ words a = words a) by apply intersection_idemp_L.
  assert (Hu : words a ∪ words a = words a) by apply union_idemp_L.
  destruct (size (words a)) as [|u] eqn:Hs.
  { exfalso. apply Hne. now apply size_zero_iff. }
  assert (Hsu : size (words a ∪ words a) = S u) by now rewrite Hu.
  eexists. split; [apply (calculate_similarity_nonempty a a u Hsu)|].
  rewrite Hi, Hs. pose proof (ratio_one u) as H1.
  destruct (category_match a a).
  - destruct (py_min_cases ((Z.of_nat (S u) # Pos.of_nat (S u)) * (13 # 10)) 1)
      as [[-> Hle]|[-> _]]; [|reflexivity].
    rewrite H1 in Hle. lra.
  - destruct (py_min_cases (Z.of_nat (S u) # Pos.of_nat (S u)) 1)
      as [[-> _]|[-> _]]; [exact H1 | reflexivity].
Qed.

Lemma calculate_similarity_self_witness :
  exists q, calculate_similarity "Red  Sneaker" "Red  Sneaker" = Ok q /\ (q == 1)%Q.
Proof.
  apply calculate_similarity_self. intros H.
  apply (f_equal size) in H. vm_compute in H. discriminate H.
Defined.

(** X2. The score is 0 exactly when the two texts share no token. *)
Theorem calculate_similarity_zero_iff_disjoint (a b : string) :
  exists q,
    calculate_similarity a b = Ok q
    /\ ((q == 0)%Q <-> words a ∩ words b = ∅).
Proof.
  destruct (size (words a ∪ words b)) as [|u] eqn:Hu.
  - exists 0%Q. split; [now apply calculate_similarity_empty|].
    split; [intros _|reflexivity].
    apply size_zero_iff in Hu. apply size_zero_iff.
    apply Nat.le_0_r. rewrite <- (size_empty (C:=gset string)), <- Hu.
    apply inter_le_union.
  - pose proof (inter_le_union (words a) (words b)) as Hle. rewrite Hu in Hle.
    destruct (ratio_bounds _ _ Hle) as [H0 H1].
    pose proof (ratio_zero (size (words a ∩ words b)) u) as Hz.
    rewrite size_zero_iff in Hz.
    eexists. split; [apply (calculate_similarity_nonempty a b u Hu)|].
    rewrite <- Hz.
    set (r := (Z.of_nat (size (words a ∩ words b)) # Pos.of_nat (S u))%Q) in *.
    destruct (category_match a b).
    + destruct (py_min_cases (r * (13 # 10)) 1) as [[-> _]|[-> Hlt]].
      * split; intros H; lra.
      * split; intros H; [discriminate H | lra].
    + destruct (py_min_cases r 1) as [[-> _]|[-> Hlt]].
      * reflexivity.
      * split; intros H; [discriminate H | lra].
Qed.

(** X3. The score depends on a text only through its lower-case form: two
    texts with the same lower-case form, and so two that differ only in
    the case of ASCII letters, score the same against any text, on
    either side. *)
Theorem calculate_similarity_ignores_case (a a' b : string) :
  Str.lower a' = Str.lower a \/ ascii_case_variant a a' ->
  calculate_similarity a' b = calculate_similarity a b
  /\ calculate_similarity b a' = calculate_similarity b a.
Proof.
  intros H.
  assert (E : Str.lower a' = Str.lower a).
  { destruct H as [H|H]; [exact H|]. symmetry. now apply ascii_case_variant_lower. }
  unfold calculate_similarity, words, category_match. now rewrite E.
Qed.

Lemma calculate_similarity_ignores_case_witness :
  calculate_similarity "Footwear" "red shoes footwear" = Ok (13 # 30)
  /\ calculate_similarity "footwear" "red shoes footwear"
     = calculate_similarity "Footwear" "red shoes footwear".
Proof.
  split; [vm_compute; reflexivity|].
  exact (proj1 (calculate_similarity_ignores_case
                  "Footwear" "footwear" "red shoes footwear"
                  (or_intror Footwear_footwear))).
Defined.

(** X4. The keyword boost never lowers a score and raises it by at most 30
    percent: the score lies between the Jaccard coefficient and 1.3 times
    the Jaccard coefficient. *)
Theorem calculate_similarity_between (a b : string) :
  exists q,
    calculate_similarity a b = Ok q
    /\ (spec_jaccard a b <= q)%Q
    /\ (q <= spec_jaccard a b * (13 # 10))%Q.
Proof.
  destruct (size (words a ∪ words b)) as [|u] eqn:Hu.
  - exists 0%Q. split; [now apply calculate_similarity_empty|].
    unfold spec_jaccard. rewrite Hu. split; discriminate.
  - pose proof (inter_le_union (words a) (words b)) as Hle. rewrite Hu in Hle.
    destruct (ratio_bounds _ _ Hle) as [H0 H1].
    pose proof (spec_jaccard_ratio a b u Hu) as Hj.
    eexists. split; [apply (calculate_similarity_nonempty a b u Hu)|].
    rewrite Hj.
    set (r := (Z.of_nat (size (words a ∩ words b)) # Pos.of_nat (S u))%Q) in *.
    destruct (category_match a b).
    + destruct (py_min_cases (r * (13 # 10)) 1) as [[-> _]|[-> Hlt]];
        split; lra.
    + destruct (py_min_cases r 1) as [[-> _]|[-> Hlt]]; split; lra.
Qed.

(* ===================================================================== *)
(** ** Further properties of the embedding cache *)
(* ===================================================================== *)

(** X5. A look-up never evicts or overwrites: the keys of the cache grow by
    exactly the identifier looked up, every entry held before is still
    held, and the string returned is the one now cached. *)
Theorem get_product_embedding_grows (p : Product) (st : State) :
  let st1 := snd (get_product_embedding p st) in
  dom (product_embeddings_cache st1) = {[id p]} ∪ dom (product_embeddings_cache st)
  /\ (forall i e, product_embeddings_cache st !! i = Some e ->
                 product_embeddings_cache st1 !! i = Some e)
  /\ product_embeddings_cache st1 !! id p = Some (fst (get_product_embedding p st)).
Proof.
  intros st1. split; [|split].
  - unfold st1, get_product_embedding.
    destruct (product_embeddings_cache st !! id p) as [c|] eqn:E; cbn [snd].
    + apply set_eq. intros i. rewrite elem_of_union, elem_of_singleton.
      split; [now right|]. intros [->|H]; [|exact H].
      apply elem_of_dom. now exists c.
    + cbn [product_embeddings_cache]. apply dom_insert_L.
  - intros i e. apply get_product_embedding_keeps.
  - apply get_product_embedding_stored.
Qed.

Lemma run_lookups_catalog (ps : list Product) (st : State) :
  PRODUCTS (run_lookups ps st) = PRODUCTS st.
Proof.
  revert st. induction ps as [|p ps IH]; intros st; simpl; [reflexivity|].
  rewrite IH. apply get_product_embedding_catalog.
Qed.

Lemma run_lookups_coherent_aux (ps : list Product) (st : State) :
  NoDup (map id (PRODUCTS st)) -> coherent st ->
  Forall (fun p => In p (PRODUCTS st)) ps ->
  coherent (run_lookups ps st).
Proof.
  revert st. induction ps as [|p ps IH]; intros st Hnd Hco Hps; simpl; [exact Hco|].
  apply Forall_cons in Hps as [Hp Hps].
  destruct (get_product_embedding_coherent p st Hnd Hco Hp) as [_ Hco1].
  pose proof (get_product_embedding_catalog p st) as Hcat.
  apply IH; [now rewrite Hcat | exact Hco1 | now rewrite Hcat].
Qed.

(** X6. With unique identifiers, a cache whose entries are the embeddings of
    their products (an empty one, say) stays so under any run of look-ups
    of catalog products, and every look-up then returns the product's own
    lowercased text. *)
Theorem run_lookups_coherent (ps : list Product) (st : State) :
  NoDup (map id (PRODUCTS st)) -> coherent st ->
  Forall (fun p => In p (PRODUCTS st)) ps ->
  coherent (run_lookups ps st)
  /\ forall p, In p (PRODUCTS st) ->
               fst (get_product_embedding p (run_lookups ps st)) = product_text p.
Proof.
  intros Hnd Hco Hps.
  pose proof (run_lookups_coherent_aux ps st Hnd Hco Hps) as Hco'.
  split; [exact Hco'|]. intros p Hp.
  apply get_product_embedding_coherent; [ | exact Hco' | ];
    now rewrite run_lookups_catalog.
Qed.

Lemma sample_ids_unique : NoDup (map id (PRODUCTS sample_state)).
Proof.
  apply (bool_decide_unpack _). reflexivity.
Qed.

Lemma empty_cache_coherent (l : list Product) :
  coherent {| PRODUCTS := l; product_embeddings_cache := ∅ |}.
Proof. intros p e _ H. cbn in H. rewrite lookup_empty in H. discriminate H. Qed.

Lemma run_lookups_coherent_witness :
  fst (get_product_embedding boots (run_lookups [sneaker; boots; sneaker] sample_state))
  = product_text boots.
Proof.
  apply (proj2 (run_lookups_coherent [sneaker; boots; sneaker] sample_state
                  sample_ids_unique (empty_cache_coherent _)
                  ltac:(repeat constructor; cbn; tauto))).
  cbn. tauto.
Defined.

(* ===================================================================== *)
(** ** Further properties of the string operations *)
(* ===================================================================== *)

Lemma absent_nil (c : ascii) : absent c EmptyString.
Proof. intros [|x before] after H; discriminate H. Qed.

Lemma absent_cons (c d : ascii) (s : string) :
  absent c (String d s) <-> d <> c /\ absent c s.
Proof.
  split.
  - intros H. split.
    + intros ->. now apply (H EmptyString s).
    + intros before after ->. now apply (H (String d before) after).
  - intros [Hd Hs] [|x before] after E; str_simpl_in E.
    + injection E as E _. now apply Hd.
    + injection E as _ E. now apply (Hs before after).
Qed.

Lemma absent_app (c : ascii) (s t : string) :
  absent c s -> absent c t -> absent c (s ++ t).
Proof.
  induction s as [|d s IH]; str_simpl; intros Hs Ht; [exact Ht|].
  apply absent_cons in Hs as [Hd Hs]. apply absent_cons. split; auto.
Qed.

Lemma split_on_aux_nonempty (sep : ascii) (s : string) (cur : list ascii) :
  Str.split_on_aux sep s cur <> [].
Proof.
  revert cur. induction s as [|c s IH]; intros cur; str_simpl; [discriminate|].
  destruct (Ascii.eqb c sep); [discriminate | apply IH].
Qed.

Lemma split_on_aux_absent (sep : ascii) (s : string) (cur : list ascii) :
  absent sep s ->
  Str.split_on_aux sep s cur = [string_of_list_ascii (rev cur) ++ s].
Proof.
  revert cur. induction s as [|c s IH]; intros cur H; str_simpl.
  - now rewrite str_app_nil.
  - apply absent_cons in H as [Hc Hs].
    apply Ascii.eqb_neq in Hc. rewrite Hc, (IH _ Hs). cbn [rev].
    now rewrite str_of_list_snoc.
Qed.

(** Splitting a text that has a separator in the middle. *)
Lemma split_on_aux_app (sep : ascii) (s t : string) (cur : list ascii) :
  Str.split_on_aux sep (s ++ String sep t) cur
  = (Str.split_on_aux sep s cur ++ Str.split_on_aux sep t [])%list.
Proof.
  revert cur. induction s as [|c s IH]; intros cur; str_simpl.
  - now rewrite Ascii.eqb_refl.
  - destruct (Ascii.eqb c sep); [|apply IH].
    cbn [app]. now rewrite IH.
Qed.

(** Joining the pieces with the separator gives the text back. *)
Lemma join_split_on_aux (sep : ascii) (s : string) (cur : list ascii) :
  Str.join (String sep EmptyString) (Str.split_on_aux sep s cur)
  = string_of_list_ascii (rev cur) ++ s.
Proof.
  revert cur. induction s as [|c s IH]; intros cur; str_simpl.
  - now rewrite str_app_nil.
  - destruct (Ascii.eqb_spec c sep) as [->|Hc].
    + pose proof (split_on_aux_nonempty sep s []) as Hne.
      pose proof (IH []) as IH0.
      destruct (Str.split_on_aux sep s []) as [|p rest]; [contradiction|].
      cbn [Str.join]. cbn [Str.join] in IH0. rewrite IH0. reflexivity.
    + rewrite IH. cbn [rev]. now rewrite str_of_list_snoc.
Qed.

Lemma lstrip_keeps (c : ascii) (s : string) :
  Str.isspace c = false -> Str.lstrip (String c s) = String c s.
Proof. intros H. str_simpl. now rewrite H. Qed.

Lemma rstrip_keeps (s : string) (c : ascii) :
  Str.isspace c = false ->
  Str.rstrip (s ++ String c EmptyString) = s ++ String c EmptyString.
Proof.
  intros H. induction s as [|a s IH]; str_simpl.
  - now rewrite H.
  - rewrite IH. now destruct s.
Qed.

Lemma find_absent (c : ascii) (s : string) : absent c s -> Str.find c s = None.
Proof.
  induction s as [|d s IH]; str_simpl; [reflexivity|]. intros H.
  apply absent_cons in H as [Hd Hs]. apply Ascii.eqb_neq in Hd.
  now rewrite Hd, (IH Hs).
Qed.

Lemma rfind_absent (c : ascii) (s : string) : absent c s -> Str.rfind c s = None.
Proof.
  induction s as [|d s IH]; str_simpl; [reflexivity|]. intros H.
  apply absent_cons in H as [Hd Hs]. apply Ascii.eqb_neq in Hd.
  now rewrite Hd, (IH Hs).
Qed.

Lemma find_first (c : ascii) (before after : string) :
  absent c before ->
  Str.find c (before ++ String c after) = Some (String.length before).
Proof.
  induction before as [|d s IH]; str_simpl; intros H.
  - now rewrite Ascii.eqb_refl.
  - apply absent_cons in H as [Hd Hs]. apply Ascii.eqb_neq in Hd.
    now rewrite Hd, (IH Hs).
Qed.

Lemma rfind_last (c : ascii) (before after : string) :
  absent c after ->
  Str.rfind c (before ++ String c after) = Some (String.length before).
Proof.
  intros H. induction before as [|d s IH]; str_simpl.
  - now rewrite (rfind_absent c after H), Ascii.eqb_refl.
  - now rewrite IH.
Qed.

Lemma str_drop_app (s t : string) : Str.drop (String.length s) (s ++ t) = t.
Proof. induction s as [|c s IH]; str_simpl; [now destruct t | exact IH]. Qed.

Lemma str_take_app (s t : string) : Str.take (String.length s) (s ++ t) = s.
Proof. induction s as [|c s IH]; str_simpl; [reflexivity | now rewrite IH]. Qed.

Lemma str_length_app (s t : string) :
  String.length (s ++ t) = (String.length s + String.length t)%nat.
Proof. induction s as [|c s IH]; str_simpl; [reflexivity | now rewrite IH]. Qed.

Lemma str_take_drop (n : nat) (s : string) : Str.take n s ++ Str.drop n s = s.
Proof.
  revert s. induction n as [|n IH]; intros s; [now destruct s|].
  destruct s as [|c s]; str_simpl; [reflexivity | now rewrite IH].
Qed.

Lemma slice_substring (i j : nat) (s : string) : is_substring (Str.slice i j s) s.
Proof.
  unfold Str.slice.
  exists (Str.take i s), (Str.drop (j - i) (Str.drop i s)).
  now rewrite str_take_drop, str_take_drop.
Qed.

(* ===================================================================== *)
(** ** Further properties of the image analyzer *)
(* ===================================================================== *)

Lemma strip_fences_defined (text : string) :
  exists t, strip_fences text = Ok t
            /\ (Str.startswith text "```" = false -> t = text).
Proof.
  unfold strip_fences. destruct (Str.startswith text "```") eqn:E.
  - unfold Str.split_on.
    pose proof (split_on_aux_nonempty newline text []) as Hne.
    destruct (Str.split_on_aux newline text []) as [|l0 rest]; [contradiction|].
    cbn [rbind]. eexists. split; [reflexivity | discriminate].
  - exists text. now split.
Qed.

(** X7. Once the provider has answered, reading the reply cannot fail: the
    indexing of the first line never goes out of range. A reply that does
    not open with a code fence is only trimmed. *)
Theorem reply_text_defined (t : option string) :
  exists text,
    reply_text (Response (Ok t)) = Ok text
    /\ (Str.startswith (Str.strip (default EmptyString t)) "```" = false ->
        text = Str.strip (default EmptyString t)).
Proof.
  unfold reply_text. cbn [rbind].
  replace (match t with Some s => s | None => EmptyString end)
    with (default EmptyString t) by now destruct t.
  apply strip_fences_defined.
Qed.

Lemma strip_fenced (s : string) :
  Str.strip ("```" ++ s ++ "```") = "```" ++ s ++ "```".
Proof.
  unfold Str.strip.
  change ("```" ++ s ++ "```") with (String "`" ("``" ++ s ++ "```")).
  rewrite lstrip_keeps by reflexivity.
  change (String "`" ("``" ++ s ++ "```")) with ("```" ++ s ++ "``" ++ "`").
  rewrite <- !str_app_assoc. now apply rstrip_keeps.
Qed.

(** X8. A reply wrapped in a Markdown code fence, with or without a language
    label, is reduced to its trimmed body. *)
Theorem reply_text_fenced (label body : string) :
  absent newline label ->
  reply_text (Response (Ok (Some
    ("```" ++ label ++ String newline body ++ String newline "```"))))
  = Ok (Str.strip body).
Proof.
  intros Hlabel. unfold reply_text. cbn [rbind].
  replace ("```" ++ label ++ String newline body ++ String newline "```")
    with ("```" ++ (label ++ String newline (body ++ String newline EmptyString)) ++ "```")
    by (rewrite !str_app_assoc, !str_app_cons, !str_app_assoc;
        now rewrite !str_app_cons, !str_app_nil_l).
  rewrite strip_fenced.
  replace ("```" ++ (label ++ String newline (body ++ String newline EmptyString)) ++ "```")
    with (("```" ++ label) ++ String newline (body ++ String newline "```"))
    by (rewrite !str_app_assoc, !str_app_cons, !str_app_assoc;
        now rewrite !str_app_cons, !str_app_nil_l).
  unfold strip_fences.
  assert (Hstart : Str.startswith (("```" ++ label) ++ String newline (body ++ String newline "```")) "```" = true).
  { apply startswith_spec. eexists. now rewrite str_app_assoc. }
  rewrite Hstart. unfold Str.split_on.
  rewrite split_on_aux_app.
  rewrite split_on_aux_absent
    by (apply absent_app; [|exact Hlabel];
        repeat (apply absent_cons; split; [discriminate|]); apply absent_nil).
  rewrite split_on_aux_app.
  rewrite (split_on_aux_absent newline "```")
    by (repeat (apply absent_cons; split; [discriminate|]); apply absent_nil).
  cbn [rev string_of_list_ascii app rbind]. rewrite !str_app_nil_l.
  assert (Hfirst : Str.startswith ("```" ++ label) "```" = true).
  { apply startswith_spec. now exists label. }
  rewrite Hfirst. unfold drop_closing_fence.
  rewrite last_snoc. change (Str.strip "```") with "```".
  rewrite String.eqb_refl, removelast_last.
  now rewrite join_split_on_aux.
Qed.

Lemma reply_text_fenced_witness :
  reply_text (Response (Ok (Some
    ("```" ++ "json" ++ String newline " {} " ++ String newline "```"))))
  = Ok "{}".
Proof.
  apply (reply_text_fenced "json" " {} ").
  repeat (apply absent_cons; split; [discriminate|]). apply absent_nil.
Defined.

(** X9. Commentary around the JSON object is cut away: with no opening brace
    before the object and no closing brace after it, exactly the object's
    text is extracted. *)
Theorem extract_json_text_commentary (before inner after : string) :
  absent "{" before -> absent "}" after ->
  extract_json_text (before ++ "{" ++ inner ++ "}" ++ after) = "{" ++ inner ++ "}".
Proof.
  intros Hb Ha. unfold extract_json_text.
  change (before ++ "{" ++ inner ++ "}" ++ after)
    with (before ++ String "{" (inner ++ "}" ++ after)).
  rewrite (find_first "{" before _ Hb).
  replace (before ++ String "{" (inner ++ "}" ++ after))
    with ((before ++ "{" ++ inner) ++ String "}" after)
    by (now rewrite !str_app_assoc).
  rewrite (rfind_last "}" _ after Ha).
  set (stop := String.length (before ++ "{" ++ inner)).
  assert (Hstop : stop = (String.length before + S (String.length inner))%nat).
  { unfold stop. rewrite !str_length_app. cbn [String.length]. lia. }
  assert (E : (String.length before <? stop)%nat = true)
    by (apply Nat.ltb_lt; lia).
  rewrite E. unfold Str.slice.
  replace ((before ++ "{" ++ inner) ++ String "}" after)
    with (before ++ ("{" ++ inner ++ "}") ++ after)
    by (now rewrite !str_app_assoc).
  rewrite str_drop_app.
  replace (stop + 1 - String.length before)%nat
    with (String.length ("{" ++ inner ++ "}"))
    by (rewrite Hstop, !str_length_app; cbn [String.length]; lia).
  apply str_take_app.
Qed.

Lemma extract_json_text_commentary_witness :
  extract_json_text ("Here you go: " ++ "{" ++ "}{" ++ "}" ++ " Enjoy!") = "{" ++ "}{" ++ "}".
Proof.
  apply extract_json_text_commentary;
    repeat (apply absent_cons; split; [discriminate|]); apply absent_nil.
Defined.

(** X10. What is handed to the JSON parser is always a piece of the reply, and
    is the whole reply when the reply has no opening or no closing brace. *)
Theorem extract_json_text_substring (text : string) :
  is_substring (extract_json_text text) text
  /\ (absent "{" text \/ absent "}" text -> extract_json_text text = text).
Proof.
  split.
  - unfold extract_json_text.
    destruct (Str.find "{" text) as [start|], (Str.rfind "}" text) as [end_|];
      try (exists EmptyString, EmptyString; now rewrite str_app_nil).
    destruct (start <? end_)%nat; [apply slice_substring|].
    exists EmptyString, EmptyString. now rewrite str_app_nil.
  - intros [H|H]; unfold extract_json_text.
    + now rewrite (find_absent _ _ H).
    + rewrite (rfind_absent _ _ H). now destruct (Str.find "{" text).
Qed.

Lemma extract_json_text_substring_witness :
  extract_json_text "Sorry, no idea." = "Sorry, no idea.".
Proof.
  apply (proj2 (extract_json_text_substring "Sorry, no idea.")). left.
  repeat (apply absent_cons; split; [discriminate|]). apply absent_nil.
Defined.

Lemma dict_setdefault_lookup (k k' : string) (v : json) (d : Dict) :
  dict_get k' (dict_setdefault k v d)
  = if String.eqb k k' then Some (default v (dict_get k d)) else dict_get k' d.
Proof.
  unfold dict_setdefault. destruct (String.eqb_spec k k') as [<-|Hne].
  - destruct (dict_get k d) as [w|] eqn:E; [exact E | apply dict_get_set_eq].
  - destruct (dict_get k d); [reflexivity | now apply dict_get_set_ne].
Qed.

Lemma dict_set_same (k : string) (v : json) (d : Dict) :
  dict_get k d = Some v -> dict_set k v d = d.
Proof.
  induction d as [|[k' v'] d IH]; simpl; [discriminate|].
  destruct (String.eqb k k'); [now intros [= ->] | intros H; now rewrite IH].
Qed.

Lemma normalize_field_value (k : string) (d : Dict) :
  normalize_field (JObject d) k
  = Ok (JObject (dict_set k (list_or_empty (dict_get k d)) d)).
Proof.
  unfold normalize_field, list_or_empty.
  destruct (dict_get k d) as [[]|]; reflexivity.
Qed.

Lemma normalize_fields_lookup (ks : list string) (d : Dict) :
  exists d',
    normalize_fields (JObject d) ks = Ok (JObject d')
    /\ forall k, dict_get k d'
                 = if existsb (String.eqb k) ks
                   then Some (list_or_empty (dict_get k d))
                   else dict_get k d.
Proof.
  revert d. induction ks as [|k0 ks IH]; intros d.
  - exists d. now split.
  - cbn [normalize_fields]. rewrite normalize_field_value. cbn [rbind].
    destruct (IH (dict_set k0 (list_or_empty (dict_get k0 d)) d)) as [d' [Hrun Hget]].
    exists d'. split; [exact Hrun|]. intros k. rewrite Hget. cbn [existsb].
    destruct (String.eqb_spec k k0) as [->|Hne]; cbn [orb].
    + rewrite dict_get_set_eq.
      destruct (existsb (String.eqb k0) ks); [|reflexivity].
      unfold list_or_empty. now destruct (dict_get k0 d) as [[]|].
    + now rewrite dict_get_set_ne by congruence.
Qed.

Lemma normalize_fields_same (ks : list string) (d : Dict) :
  (forall k, In k ks -> exists items, dict_get k d = Some (JArray items)) ->
  normalize_fields (JObject d) ks = Ok (JObject d).
Proof.
  induction ks as [|k ks IH]; intros H; [reflexivity|].
  cbn [normalize_fields]. rewrite normalize_field_value.
  destruct (H k (or_introl eq_refl)) as [items Hk].
  rewrite Hk. cbn [list_or_empty]. rewrite (dict_set_same _ _ _ Hk). cbn [rbind].
  apply IH. intros k' Hk'. apply H. now right.
Qed.

Lemma existsb_eqb_In (k : string) (ks : list string) :
  existsb (String.eqb k) ks = true <-> In k ks.
Proof.
  rewrite existsb_exists. split.
  - intros [x [Hx E]]. apply String.eqb_eq in E. now subst.
  - intros H. exists k. split; [exact H | apply String.eqb_refl].
Qed.

(** X11. What the normalization does to a parsed object, key by key: summary
    and category keep their value and get "" and "Unknown" when missing;
    a list field keeps a list and gets [] for anything else or when
    missing; every other key of the reply is kept as it is. *)
Theorem parse_reply_object (json_loads : string -> result json)
    (text : string) (d : Dict) :
  json_loads (extract_json_text text) = Ok (JObject d) ->
  exists d',
    parse_reply json_loads text = Ok d'
    /\ dict_get "summary" d' = Some (default (JString EmptyString) (dict_get "summary" d))
    /\ dict_get "category" d' = Some (default (JString "Unknown") (dict_get "category" d))
    /\ (forall k, In k list_fields -> dict_get k d' = Some (list_or_empty (dict_get k d)))
    /\ (forall k, k <> "summary" -> k <> "category" -> ~ In k list_fields ->
                  dict_get k d' = dict_get k d).
Proof.
  intros Hloads. unfold parse_reply. rewrite Hloads. cbn [setdefault rbind].
  set (d1 := dict_setdefault "category" (JString "Unknown")
               (dict_setdefault "summary" (JString EmptyString) d)).
  destruct (normalize_fields_lookup list_fields d1) as [d' [Hrun Hget]].
  rewrite Hrun. cbn [rbind as_dict]. exists d'. split; [reflexivity|].
  assert (Hd1 : forall k, dict_get k d1
                = if String.eqb "category" k
                  then Some (default (JString "Unknown") (dict_get "category" d))
                  else if String.eqb "summary" k
                       then Some (default (JString EmptyString) (dict_get "summary" d))
                       else dict_get k d).
  { intros k. unfold d1. rewrite !dict_setdefault_lookup.
    destruct (String.eqb "category" k); reflexivity. }
  split; [|split; [|split]].
  - rewrite Hget, Hd1. reflexivity.
  - rewrite Hget, Hd1. reflexivity.
  - intros k Hk. rewrite Hget.
    rewrite (proj2 (existsb_eqb_In k list_fields) Hk). rewrite Hd1.
    simpl in Hk.
    repeat (destruct Hk as [<-|Hk]; [reflexivity|]). destruct Hk.
  - intros k Hs Hc Hl. rewrite Hget.
    destruct (existsb (String.eqb k) list_fields) eqn:E.
    { apply existsb_eqb_In in E. contradiction. }
    rewrite Hd1.
    apply not_eq_sym in Hs, Hc. apply String.eqb_neq in Hs, Hc.
    now rewrite Hs, Hc.
Qed.

Lemma parse_reply_object_witness :
  exists d',
    parse_reply sample_loads odd_reply = Ok d'
    /\ dict_get "summary" d' = Some (JNumber 123)
    /\ dict_get "colors" d' = Some (JArray []).
Proof.
  destruct (parse_reply_object sample_loads odd_reply
              [("summary", JNumber 123); ("category", JNull)] eq_refl)
    as [d' [Hrun [Hs [_ [Hl _]]]]].
  exists d'. split; [exact Hrun|]. split; [exact Hs|].
  apply (Hl "colors"). simpl. tauto.
Defined.

(** X12. A reply that already has the full shape passes through unchanged,
    keys and order included. *)
Theorem parse_reply_well_formed (json_loads : string -> result json)
    (text : string) (d : Dict) :
  json_loads (extract_json_text text) = Ok (JObject d) ->
  normalized d ->
  parse_reply json_loads text = Ok d.
Proof.
  intros Hloads [[s Hs] [[c Hc] Hlists]].
  unfold parse_reply. rewrite Hloads. cbn [setdefault rbind].
  unfold dict_setdefault. rewrite Hs, Hc.
  now rewrite (normalize_fields_same list_fields d Hlists).
Qed.

Lemma sample_description_normalized : normalized sample_description.
Proof.
  split; [now eexists|]. split; [now eexists|].
  intros k Hk. simpl in Hk.
  repeat (destruct Hk as [<-|Hk]; [now eexists|]). destruct Hk.
Qed.

Lemma parse_reply_well_formed_witness :
  parse_reply sample_loads shoe_reply = Ok sample_description.
Proof.
  exact (parse_reply_well_formed sample_loads shoe_reply sample_description
           eq_refl sample_description_normalized).
Defined.

Lemma extract_json_text_whole (text : string) :
  absent "{" text \/ absent "}" text -> extract_json_text text = text.
Proof.
  intros [H|H]; unfold extract_json_text.
  - now rewrite (find_absent _ _ H).
  - rewrite (rfind_absent _ _ H). now destruct (Str.find "{" text).
Qed.

(** X13. When the text handed to the JSON parser, which is the reply from
    its first opening to its last closing brace or else the whole reply,
    parses to a value that is not an object, the analysis ends in the
    last-resort description: the attribute error of the normalization is
    caught like a provider failure. So does every reply without an
    opening or without a closing brace that is valid JSON but not an
    object: a list, a string, a number, null. *)
Theorem analyze_image_not_an_object
    (Image : Type) (generate_content : payload Image -> provider_outcome)
    (json_loads : string -> result json) (image : Image) (text : string) (v : json) :
  reply_text (generate_content (Inline image)) = Ok text ->
  (forall d, v <> JObject d) ->
  (json_loads (extract_json_text text) = Ok v ->
   analyze_image Image generate_content json_loads true image false
   = ([Inline image], Ok (fallback "Unable to analyze image at this time.")))
  /\ (absent "{" text \/ absent "}" text ->
      json_loads text = Ok v ->
      analyze_image Image generate_content json_loads true image false
      = ([Inline image], Ok (fallback "Unable to analyze image at this time."))).
Proof.
  intros Htext Hv.
  assert (Hmain : json_loads (extract_json_text text) = Ok v ->
                  analyze_image Image generate_content json_loads true image false
                  = ([Inline image],
                     Ok (fallback "Unable to analyze image at this time."))).
  { intros Hloads. unfold analyze_image, analyze_body. cbn [negb].
    rewrite Htext. cbn [rbind]. unfold parse_reply. rewrite Hloads.
    destruct v as [| | | | |d]; try reflexivity.
    now destruct (Hv d). }
  split; [exact Hmain|].
  intros Habsent Hloads. apply Hmain.
  now rewrite (extract_json_text_whole text Habsent).
Qed.

(* ===================================================================== *)
(** ** Further properties of the query embedder *)
(* ===================================================================== *)

Lemma joined_cases (repr : json -> string) (analysis : Dict) (k : string) :
  (scalar (default (JArray []) (dict_get k analysis)) = true
   /\ joined repr analysis k = Raise TypeError)
  \/ (scalar (default (JArray []) (dict_get k analysis)) = false
      /\ exists s, joined repr analysis k = Ok (JString s)).
Proof.
  unfold joined.
  destruct (default (JArray []) (dict_get k analysis)); cbn [scalar iterate rbind];
    first [left; split; reflexivity | right; split; [reflexivity | eexists; reflexivity]].
Qed.

Lemma str_items_head (x : json) (parts : list json) :
  (unjoinable x = true ->
   str_items (List.filter truthy (x :: parts)) = Raise TypeError)
  /\ (unjoinable x = false ->
      (forall e, str_items (List.filter truthy parts) = Raise e ->
                 str_items (List.filter truthy (x :: parts)) = Raise e)
      /\ (forall l, str_items (List.filter truthy parts) = Ok l ->
                    exists l', str_items (List.filter truthy (x :: parts)) = Ok l')).
Proof.
  unfold unjoinable. cbn [List.filter].
  destruct (truthy x) eqn:Ht; cbn [andb].
  - destruct x; cbn [is_str negb str_items];
      (split; [try discriminate; reflexivity |]); try discriminate.
    intros _. split.
    + intros e ->. reflexivity.
    + intros l ->. cbn [rbind]. eauto.
  - split; [discriminate|]. intros _. split; eauto.
Qed.

(** X14. The embedder fails only with a type error, and exactly when a list
    field holds [None], a boolean or a number, or when summary or category
    holds a non-empty value that is not a string. A [None], 0, [False] or
    empty-list summary is skipped like an empty string. *)
Theorem build_query_embedding_fails_iff (repr : json -> string) (analysis : Dict) :
  (forall e, build_query_embedding repr analysis = Raise e -> e = TypeError)
  /\ (build_query_embedding repr analysis = Raise TypeError
      <-> (exists k, In k list_fields
                     /\ scalar (default (JArray []) (dict_get k analysis)) = true)
          \/ (exists k, In k ["summary"; "category"]
                        /\ unjoinable (default (JString EmptyString)
                                         (dict_get k analysis)) = true)).
Proof.
  assert (Hlist : forall k, In k list_fields ->
            joined repr analysis k = Raise TypeError ->
            build_query_embedding repr analysis = Raise TypeError).
  { intros k Hk Hraise. unfold build_query_embedding. simpl in Hk.
    destruct (joined_cases repr analysis "colors") as [[_ H1]|[_ [s1 H1]]];
      rewrite H1; cbn [rbind]; [reflexivity|].
    destruct (joined_cases repr analysis "materials") as [[_ H2]|[_ [s2 H2]]];
      rewrite H2; cbn [rbind]; [reflexivity|].
    destruct (joined_cases repr analysis "style") as [[_ H3]|[_ [s3 H3]]];
      rewrite H3; cbn [rbind]; [reflexivity|].
    destruct (joined_cases repr analysis "objects") as [[_ H4]|[_ [s4 H4]]];
      rewrite H4; cbn [rbind]; [reflexivity|].
    destruct (joined_cases repr analysis "suggested_tags") as [[_ H5]|[_ [s5 H5]]];
      rewrite H5; cbn [rbind]; [reflexivity|].
    exfalso.
    repeat (destruct Hk as [<-|Hk]; [congruence|]). destruct Hk. }
  destruct (joined_cases repr analysis "colors") as [[B1 H1]|[B1 [s1 H1]]];
    [split; [intros e He; rewrite (Hlist "colors") in He by (simpl; tauto); congruence
            |split; [intros _; left; exists "colors"; simpl; tauto
                    |intros _; apply (Hlist "colors"); simpl; tauto]]|].
  destruct (joined_cases repr analysis "materials") as [[B2 H2]|[B2 [s2 H2]]];
    [split; [intros e He; rewrite (Hlist "materials") in He by (simpl; tauto); congruence
            |split; [intros _; left; exists "materials"; simpl; tauto
                    |intros _; apply (Hlist "materials"); simpl; tauto]]|].
  destruct (joined_cases repr analysis "style") as [[B3 H3]|[B3 [s3 H3]]];
    [split; [intros e He; rewrite (Hlist "style") in He by (simpl; tauto); congruence
            |split; [intros _; left; exists "style"; simpl; tauto
                    |intros _; apply (Hlist "style"); simpl; tauto]]|].
  destruct (joined_cases repr analysis "objects") as [[B4 H4]|[B4 [s4 H4]]];
    [split; [intros e He; rewrite (Hlist "objects") in He by (simpl; tauto); congruence
            |split; [intros _; left; exists "objects"; simpl; tauto
                    |intros _; apply (Hlist "objects"); simpl; tauto]]|].
  destruct (joined_cases repr analysis "suggested_tags") as [[B5 H5]|[B5 [s5 H5]]];
    [split; [intros e He; rewrite (Hlist "suggested_tags") in He by (simpl; tauto); congruence
            |split; [intros _; left; exists "suggested_tags"; simpl; tauto
                    |intros _; apply (Hlist "suggested_tags"); simpl; tauto]]|].
  assert (Hno : ~ exists k, In k list_fields
                  /\ scalar (default (JArray []) (dict_get k analysis)) = true).
  { intros [k [Hk Hb]]. simpl in Hk.
    repeat (destruct Hk as [<-|Hk]; [congruence|]). destruct Hk. }
  unfold build_query_embedding. rewrite H1, H2, H3, H4, H5. cbn [rbind].
  set (x := default (JString EmptyString) (dict_get "summary" analysis)).
  set (y := default (JString EmptyString) (dict_get "category" analysis)).
  change [JString s1; JString s2; JString s3; JString s4; JString s5]
    with (map JString [s1; s2; s3; s4; s5]).
  pose proof (str_items_strings [s1; s2; s3; s4; s5]) as Htail.
  destruct (str_items_head y (map JString [s1; s2; s3; s4; s5])) as [Hy1 Hy0].
  destruct (str_items_head x (y :: map JString [s1; s2; s3; s4; s5])) as [Hx1 Hx0].
  destruct (unjoinable x) eqn:Ux.
  - rewrite (Hx1 eq_refl). cbn [rbind]. split; [congruence|].
    split; [|reflexivity]. intros _. right. exists "summary". simpl. tauto.
  - destruct (Hx0 eq_refl) as [Hxr Hxo].
    destruct (unjoinable y) eqn:Uy.
    + rewrite (Hxr _ (Hy1 eq_refl)). cbn [rbind]. split; [congruence|].
      split; [|reflexivity]. intros _. right. exists "category". simpl. tauto.
    + destruct (Hy0 eq_refl) as [_ Hyo].
      destruct (Hyo _ Htail) as [l' Hl']. destruct (Hxo _ Hl') as [l'' Hl''].
      rewrite Hl''. cbn [rbind]. split; [discriminate|].
      split; [discriminate|].
      intros [H|[k [Hk Hb]]]; [contradiction|]. simpl in Hk.
      destruct Hk as [<-|[<-|[]]]; fold x in Hb; fold y in Hb; congruence.
Qed.

(* ===================================================================== *)
(** ** Further properties of the search orchestrator *)
(* ===================================================================== *)

Lemma similarity_in_unit (a b : string) (q : Q) :
  calculate_similarity a b = Ok q -> (0 <= q /\ q <= 1)%Q.
Proof.
  destruct (size (words a ∪ words b)) as [|u] eqn:Hu.
  - rewrite (calculate_similarity_empty a b Hu). intros [= <-]. split; discriminate.
  - rewrite (calculate_similarity_nonempty a b u Hu). intros [= <-].
    pose proof (inter_le_union (words a) (words b)) as Hle. rewrite Hu in Hle.
    destruct (ratio_bounds _ _ Hle) as [H0 H1].
    split; [|apply py_min_le_r].
    apply py_min_nonneg; [|discriminate].
    destruct (category_match a b); [now apply boosted_nonneg | exact H0].
Qed.

Lemma round4_unit (q : Q) :
  (0 <= q)%Q -> (q <= 1)%Q -> (0 <= round4 q /\ round4 q <= 1)%Q.
Proof.
  intros H0 H1. unfold round4.
  destruct (round_half_even_nearest (q * 10000)) as [Hlo Hhi].
  set (z := round_half_even (q * 10000)) in *.
  assert (Hz1 : (inject_Z z <= 20001 # 2)%Q) by lra.
  assert (Hz0 : (-1 # 2 <= inject_Z z)%Q) by lra.
  unfold Qle in Hz0, Hz1 |- *. cbn in Hz0, Hz1 |- *. lia.
Qed.

Lemma score_products_state (image_embedding : string) (ps : list Product) (st : State) :
  snd (score_products image_embedding ps st) = run_lookups ps st.
Proof.
  revert st. induction ps as [|p ps IH]; intros st; [reflexivity|].
  cbn [score_products run_lookups fold_left].
  destruct (get_product_embedding p st) as [e st1]. cbn [snd].
  destruct (similarity_defined image_embedding e) as [q Hq]. rewrite Hq.
  specialize (IH st1). destruct (score_products image_embedding ps st1) as [r st'].
  exact IH.
Qed.

Lemma run_lookups_cached (ps : list Product) (st : State) (p : Product) :
  In p ps -> is_Some (product_embeddings_cache (run_lookups ps st) !! id p).
Proof.
  revert st. induction ps as [|p0 ps IH]; intros st Hp; [destruct Hp|].
  cbn [run_lookups fold_left]. destruct Hp as [->|Hp]; [|now apply IH].
  eexists. apply run_lookups_keeps, get_product_embedding_stored.
Qed.

(** With every product already cached the loop leaves the state alone. *)
Lemma score_products_hits (image_embedding : string) (ps : list Product) (st : State) :
  (forall p, In p ps -> is_Some (product_embeddings_cache st !! id p)) ->
  exists scored,
    score_products image_embedding ps st = (Ok scored, st)
    /\ Forall2 (scored_from image_embedding st) ps scored.
Proof.
  induction ps as [|p ps IH]; intros Hall.
  - exists []. split; [reflexivity | constructor].
  - destruct (Hall p (or_introl eq_refl)) as [e He].
    destruct IH as [scored [Hrun Hsc]]; [intros p' Hp'; apply Hall; now right|].
    cbn [score_products]. rewrite (get_product_embedding_hit p st e He).
    destruct (similarity_defined image_embedding e) as [q Hq]. rewrite Hq, Hrun.
    cbn [rbind]. eexists. split; [reflexivity|].
    constructor; [|exact Hsc]. split; [reflexivity|].
    exists q. split; [|reflexivity].
    now rewrite (get_product_embedding_hit p st e He).
Qed.

Lemma scored_from_unique (image_embedding : string) (st : State)
    (ps : list Product) (l1 l2 : list Ranked) :
  Forall2 (scored_from image_embedding st) ps l1 ->
  Forall2 (scored_from image_embedding st) ps l2 ->
  l1 = l2.
Proof.
  intros H1. revert l2. induction H1 as [|p r1 ps l1 Hr1 _ IH]; intros l2 H2.
  - now inversion H2.
  - inversion H2 as [|p' r2 ps' l2' Hr2 Hrest]; subst. f_equal; [|now apply IH].
    destruct Hr1 as [Hp1 [q1 [Hq1 Hs1]]], Hr2 as [Hp2 [q2 [Hq2 Hs2]]].
    destruct r1, r2. cbn in *. subst. f_equal. congruence.
Qed.


Section SearchFacts.

Variable Image : Type.
Variable generate_content : payload Image -> provider_outcome.
Variable json_loads : string -> result json.
Variable repr : json -> string.
Variable GEMINI_API_KEY : option string.

Let read := read_query Image generate_content json_loads repr GEMINI_API_KEY.
Let search := search_products Image generate_content json_loads repr GEMINI_API_KEY.

Lemma search_ranked (req : request Image) (st : State)
    (image_analysis : Dict) (image_embedding : string) :
  read req = inr (image_analysis, image_embedding) ->
  exists scored,
    search req st
    = (Success image_analysis (take 20 (sort_desc scored))
         (length (take 20 (sort_desc scored))),
       run_lookups (PRODUCTS st) st)
    /\ Forall2 (scored_from image_embedding (run_lookups (PRODUCTS st) st))
         (PRODUCTS st) scored.
Proof.
  intros H. unfold search, search_products. fold read. rewrite H.
  unfold rank_products.
  destruct (score_products_spec image_embedding (PRODUCTS st) st)
    as [scored [st' [Hrun [Hall _]]]].
  pose proof (score_products_state image_embedding (PRODUCTS st) st) as Hst.
  rewrite Hrun in Hst |- *. cbn [snd] in Hst. subst st'.
  exists scored. now split.
Qed.

Lemma search_early (req : request Image) (st : State) (early : response) :
  read req = inl early -> search req st = (early, st).
Proof. intros H. unfold search, search_products. fold read. now rewrite H. Qed.

Lemma search_total (req : request Image) (st : State)
    (image_analysis : Dict) (image_embedding : string) :
  read req = inr (image_analysis, image_embedding) ->
  exists results st',
    search req st
    = (Success image_analysis results (Nat.min 20 (length (PRODUCTS st))), st').
Proof.
  intros H. destruct (search_ranked req st _ _ H) as [scored [Hs Hall]].
  eexists _, _. rewrite Hs. do 2 f_equal.
  rewrite length_take, <- (Permutation_length (sort_desc_perm scored)).
  now rewrite (Forall2_length _ _ _ Hall).
Qed.

(** X15. Every search that gets past the input stage returns min(20, catalog
    size) results, reports that number as the total, and each result is a
    catalog product with a similarity in [0, 1] that is a whole number of
    ten-thousandths. *)
Theorem search_result_shape (req : request Image) (st : State)
    (image_analysis : Dict) (image_embedding : string) :
  read req = inr (image_analysis, image_embedding) ->
  exists results st',
    search req st
    = (Success image_analysis results (Nat.min 20 (length (PRODUCTS st))), st')
    /\ length results = Nat.min 20 (length (PRODUCTS st))
    /\ Forall (fun r => In (product r) (PRODUCTS st)
                        /\ (0 <= similarity r)%Q /\ (similarity r <= 1)%Q
                        /\ exists k, similarity r = k # 10000) results.
Proof.
  intros H. destruct (search_ranked req st _ _ H) as [scored [Hs Hall]].
  assert (Hlen : length (take 20 (sort_desc scored))
                 = Nat.min 20 (length (PRODUCTS st))).
  { rewrite length_take, <- (Permutation_length (sort_desc_perm scored)).
    now rewrite (Forall2_length _ _ _ Hall). }
  eexists _, _. split; [rewrite Hs, Hlen; reflexivity|]. split; [exact Hlen|].
  apply Forall_take. apply (Permutation_Forall (sort_desc_perm scored)).
  clear Hs Hlen. induction Hall as [|p r ps l [Hp [q [Hq Hr]]] _ IH];
    [constructor|].
  constructor.
  - destruct (similarity_in_unit _ _ _ Hq) as [H0 H1].
    destruct (round4_unit q H0 H1) as [R0 R1]. rewrite Hr.
    split; [left; now symmetry|]. split; [exact R0|]. split; [exact R1|].
    now eexists.
  - eapply List.Forall_impl; [|exact IH].
    intros r' [Hin Hrest]. split; [now right | exact Hrest].
Qed.

(** X16. What a search does to the state: the catalog is never changed and no
    cache entry is lost or overwritten; an error response leaves the state
    exactly as it was; after a success every catalog product is cached. *)
Theorem search_state_effects (req : request Image) (st : State) :
  let resp := fst (search req st) in
  let st' := snd (search req st) in
  PRODUCTS st' = PRODUCTS st
  /\ (forall i e, product_embeddings_cache st !! i = Some e ->
                 product_embeddings_cache st' !! i = Some e)
  /\ (forall status message, resp = Error status message -> st' = st)
  /\ (forall a results n, resp = Success a results n ->
        forall p, In p (PRODUCTS st) ->
                  is_Some (product_embeddings_cache st' !! id p)).
Proof.
  intros resp st'. unfold resp, st'. clear resp st'.
  destruct (read req) as [early|[a e]] eqn:H.
  - rewrite (search_early req st early H). cbn [fst snd].
    repeat split; auto.
    intros a results n ->.
    unfold read, read_query in H.
    destruct req as [filename opened|image_url fetched|body fetched|];
      repeat match type of H with
             | (if ?c then _ else _) = _ => destruct c
             | match ?c with _ => _ end = _ => destruct c
             end; discriminate H.
  - destruct (search_ranked req st a e H) as [scored [Hs _]]. rewrite Hs.
    cbn [fst snd]. split; [apply run_lookups_catalog|].
    split; [intros i x; apply run_lookups_keeps|].
    split; [discriminate|].
    intros _ _ _ _ p Hp. now apply run_lookups_cached.
Qed.

(** X17. A search can be repeated: the same request on the state the first
    search left gives the same response and changes nothing more. *)
Theorem search_repeatable (req : request Image) (st : State) :
  search req (snd (search req st)) = search req st.
Proof.
  destruct (read req) as [early|[a e]] eqn:H.
  - now rewrite !(search_early req _ early H).
  - destruct (search_ranked req st a e H) as [scored [Hs Hall]].
    rewrite Hs. cbn [snd].
    set (st1 := run_lookups (PRODUCTS st) st) in *.
    assert (Hcat : PRODUCTS st1 = PRODUCTS st) by apply run_lookups_catalog.
    destruct (score_products_hits e (PRODUCTS st1) st1) as [scored2 [Hrun2 Hall2]].
    { intros p Hp. rewrite Hcat in Hp. now apply run_lookups_cached. }
    rewrite Hcat in Hall2.
    rewrite (scored_from_unique e st1 _ _ _ Hall2 Hall) in Hrun2.
    unfold search, search_products. fold read. rewrite H.
    unfold rank_products. now rewrite Hrun2.
Qed.


(** X19. With unique identifiers and a cache that holds nothing but embeddings
    of their own products, every catalog product is paired with a
    rounding to 4 decimals of its score against its own lowercased name,
    category and description, and the cache is still of that kind
    afterwards. *)
Theorem search_scores_own_text (req : request Image) (st : State)
    (image_analysis : Dict) (image_embedding : string) :
  NoDup (map id (PRODUCTS st)) -> coherent st ->
  read req = inr (image_analysis, image_embedding) ->
  exists scored,
    fst (search req st)
    = Success image_analysis (take 20 (sort_desc scored))
        (length (take 20 (sort_desc scored)))
    /\ coherent (snd (search req st))
    /\ Forall2 (fun p r =>
                  product r = p
                  /\ exists q,
                       calculate_similarity image_embedding (product_text p) = Ok q
                       /\ rounded_to_4 q (similarity r)) (PRODUCTS st) scored.
Proof.
  intros Hnd Hco H.
  destruct (score_products_own_text image_embedding (PRODUCTS st) st Hnd Hco)
    as [scored [st' [Hrun [Hco' [_ Hall]]]]].
  { apply List.Forall_forall. auto. }
  exists scored. unfold search, search_products. fold read. rewrite H.
  unfold rank_products. rewrite Hrun. cbn [fst snd].
  split; [reflexivity|]. split; [exact Hco'|].
  apply (Forall2_impl _ _ _ _ Hall). intros p r [Hp [q [Hq Hr]]].
  split; [exact Hp|]. exists q. split; [exact Hq|].
  rewrite Hr. apply round4_rounded.
Qed.

(** A JSON object body that holds [image_url] is read as that URL. *)
Lemma read_json_object (d : Dict) (image_url : json) (fetched : result Image) :
  dict_get "image_url" d = Some image_url ->
  read (JsonBody (Ok (JObject d)) fetched) = read (JsonUrl image_url fetched).
Proof.
  intros H. unfold read, read_query. cbn [rbind py_in py_getitem].
  rewrite H. reflexivity.
Qed.

Lemma search_success_or_early (req : request Image) (st : State)
    (status : nat) (message : error_message) :
  fst (search req st) = Error status message ->
  read req = inl (Error status message).
Proof.
  destruct (read req) as [early|[a e]] eqn:H.
  - rewrite (search_early req st early H). cbn [fst]. now intros ->.
  - destruct (search_ranked req st a e H) as [scored [Hs _]]. rewrite Hs.
    discriminate.
Qed.

(** X20. The only error statuses of the search route are 400 and 500. A
    500 comes from an upload whose image cannot be decoded or described,
    or from a JSON body that cannot be parsed or in which [image_url]
    cannot be looked up; once the URL has been read from a JSON object,
    every failure, from the fetch to the query embedding, is reported
    as 400. *)
Theorem search_error_statuses (req : request Image) (st : State)
    (status : nat) (message : error_message) :
  fst (search req st) = Error status message ->
  (status = 400 \/ status = 500)
  /\ (status = 500 ->
      exists e, message = SearchFailed e
                /\ ((exists filename opened, req = FileUpload filename opened)
                    \/ (exists body fetched,
                          req = JsonBody body fetched
                          /\ (body = Raise e
                              \/ exists data, body = Ok data
                                              /\ (py_in "image_url" data = Raise e
                                                  \/ py_getitem data "image_url" = Raise e)))))
  /\ (forall image_url fetched, req = JsonUrl image_url fetched -> status = 400).
Proof.
  intros H. apply search_success_or_early in H.
  unfold read, read_query in H.
  assert (H400 : forall P : Prop,
            (400 = 400 \/ 400 = 500)%nat /\ (400%nat = 500%nat -> P)
            /\ (forall (image_url : json) (fetched : result Image),
                  req = JsonUrl image_url fetched -> 400%nat = 400%nat)).
  { intros P. split; [now left|]. split; [discriminate | reflexivity]. }
  destruct req as [filename opened|image_url fetched|body fetched|].
  - destruct (String.eqb filename EmptyString); [injection H as <- <-; apply H400|].
    destruct (negb _); [injection H as <- <-; apply H400|].
    destruct (rbind opened _) as [q|e]; [discriminate|].
    injection H as <- <-. split; [now right|]. split; [|discriminate].
    intros _. exists e. split; [reflexivity|]. left. now exists filename, opened.
  - destruct (negb _); [injection H as <- <-; apply H400|].
    destruct (rbind fetched _) as [q|e]; [discriminate|].
    injection H as <- <-. apply H400.
  - destruct body as [data|e]; cbn [rbind] in H.
    + destruct (py_in "image_url" data) as [[]|e] eqn:Hin; cbn [rbind] in H.
      * destruct (py_getitem data "image_url") as [image_url|e] eqn:Hget;
          cbn [rbind] in H.
        -- destruct (negb _); [injection H as <- <-; apply H400|].
           destruct (rbind fetched _) as [q|e]; [discriminate|].
           injection H as <- <-. apply H400.
        -- injection H as <- <-. split; [now right|]. split; [|discriminate].
           intros _. exists e. split; [reflexivity|]. right.
           exists (Ok data), fetched. split; [reflexivity|]. right.
           exists data. split; [reflexivity|]. now right.
      * injection H as <- <-. apply H400.
      * injection H as <- <-. split; [now right|]. split; [|discriminate].
        intros _. exists e. split; [reflexivity|]. right.
        exists (Ok data), fetched. split; [reflexivity|]. right.
        exists data. split; [reflexivity|]. now left.
    + injection H as <- <-. split; [now right|]. split; [|discriminate].
      intros _. exists e. split; [reflexivity|]. right.
      exists (Raise e), fetched. split; [reflexivity|]. now left.
  - injection H as <- <-. apply H400.
Qed.

Lemma after_last_dot_ext (stem ext : string) :
  absent "." ext -> after_last_dot (stem ++ "." ++ ext) = ext.
Proof.
  intros H. unfold after_last_dot.
  change (stem ++ "." ++ ext) with (stem ++ String "." ext).
  rewrite (rfind_last "." stem ext H).
  replace (stem ++ String "." ext) with ((stem ++ ".") ++ ext)
    by now rewrite str_app_assoc.
  replace (String.length stem + 1)%nat with (String.length (stem ++ "."))
    by (rewrite str_length_app; reflexivity).
  apply str_drop_app.
Qed.

Lemma file_ext_of (stem ext : string) :
  absent "." ext ->
  (if Str.contains "." (stem ++ "." ++ ext)
   then Str.lower (after_last_dot (stem ++ "." ++ ext)) else EmptyString)
  = Str.lower ext.
Proof.
  intros H.
  assert (Hc : Str.contains "." (stem ++ "." ++ ext) = true).
  { apply contains_spec. now exists stem, ext. }
  now rewrite Hc, after_last_dot_ext.
Qed.

Lemma dotted_not_empty (stem ext : string) :
  String.eqb (stem ++ "." ++ ext) EmptyString = false.
Proof. now destruct stem. Qed.

(** X21. The file-type check of an upload. An empty file name is "no file
    selected"; a name without a dot is an invalid type; a name with an
    extension is rejected as an invalid type exactly when the lowercased
    text after its last dot is not one of png, jpg, jpeg, gif, webp. *)
Theorem upload_extension_check (stem ext filename : string) (opened : result Image) :
  read (FileUpload EmptyString opened) = inl (Error 400 NoFileSelected)
  /\ (filename <> EmptyString -> absent "." filename ->
      read (FileUpload filename opened) = inl (Error 400 InvalidFileType))
  /\ (absent "." ext ->
      (read (FileUpload (stem ++ "." ++ ext) opened) = inl (Error 400 InvalidFileType)
       <-> ~ In (Str.lower ext) ALLOWED_EXTENSIONS)).
Proof.
  split; [reflexivity|]. split.
  - intros Hne Hdot. unfold read, read_query.
    apply String.eqb_neq in Hne. rewrite Hne.
    assert (Hc : Str.contains "." filename = false).
    { destruct (Str.contains "." filename) eqn:E; [|reflexivity].
      apply contains_spec in E as [before [after E]]. now destruct (Hdot before after). }
    now rewrite Hc.
  - intros Hdot. unfold read, read_query.
    rewrite dotted_not_empty, (file_ext_of stem ext Hdot).
    destruct (existsb (String.eqb (Str.lower ext)) ALLOWED_EXTENSIONS) eqn:E.
    + cbn [negb]. apply existsb_eqb_In in E.
      split; [|intros Hn; contradiction].
      destruct (rbind opened _); discriminate.
    + cbn [negb]. split; [|reflexivity]. intros _ Hin.
      apply existsb_eqb_In in Hin. congruence.
Qed.

Lemma build_query_embedding_fallback (s : string) :
  exists emb, build_query_embedding repr (fallback s) = Ok emb.
Proof.
  unfold build_query_embedding, joined. cbn.
  destruct s; cbn; eexists; reflexivity.
Qed.

(** X22. Graceful degradation: when the provider is not configured, or its
    call raises, a request that carries a decodable image and passes the
    input checks still succeeds, with a fall-back analysis and the usual
    number of ranked results. *)
Theorem search_survives_provider_failure (req : request Image) (image : Image)
    (st : State) :
  (exists stem ext, req = FileUpload (stem ++ "." ++ ext) (Ok image)
                    /\ absent "." ext /\ In (Str.lower ext) ALLOWED_EXTENSIONS)
  \/ (exists image_url, req = JsonUrl image_url (Ok image)
                        /\ truthy image_url = true) ->
  GEMINI_ENABLED GEMINI_API_KEY = false
  \/ generate_content (Inline image) = GenerateRaises ->
  exists summary results st',
    search req st
    = (Success (fallback summary) results (Nat.min 20 (length (PRODUCTS st))), st').
Proof.
  intros Hreq Hprov.
  assert (Hdesc : exists summary emb,
            describe Image generate_content json_loads repr GEMINI_API_KEY image
            = Ok (fallback summary, emb)).
  { unfold describe, analyze_image.
    destruct Hprov as [Hoff|Hraise].
    - rewrite Hoff. cbn [negb snd rbind].
      destruct (build_query_embedding_fallback
                  "Image uploaded. AI analysis is unavailable in offline mode.")
        as [emb He].
      rewrite He. cbn [rbind]. eauto.
    - destruct (GEMINI_ENABLED GEMINI_API_KEY); cbn [negb].
      + unfold analyze_body. rewrite Hraise. cbn [reply_text rbind snd].
        destruct (build_query_embedding_fallback
                    "Unable to analyze image at this time.") as [emb He].
        rewrite He. cbn [rbind]. eauto.
      + cbn [snd rbind].
        destruct (build_query_embedding_fallback
                    "Image uploaded. AI analysis is unavailable in offline mode.")
          as [emb He].
        rewrite He. cbn [rbind]. eauto. }
  destruct Hdesc as [summary [emb Hdesc]].
  assert (Hread : read req = inr (fallback summary, emb)).
  { unfold read, read_query.
    destruct Hreq as [[stem [ext [-> [Hdot Hin]]]]|[image_url [-> Hurl]]].
    - rewrite dotted_not_empty, (file_ext_of stem ext Hdot).
      rewrite (proj2 (existsb_eqb_In _ _) Hin). cbn [negb rbind].
      now rewrite Hdesc.
    - rewrite Hurl. cbn [negb rbind]. now rewrite Hdesc. }
  destruct (search_total req st _ _ Hread) as [results [st' Hs]].
  now exists summary, results, st'.
Qed.

End SearchFacts.

(* ===================================================================== *)
(** ** Further properties of the product listing *)
(* ===================================================================== *)



(** X24. A product is found under its own category, however the ASCII
    letters of the query are cased, and under any query with the same
    lower-case form, unless its category is the empty string: then no
    category query finds it. *)
Theorem get_products_own_category (p : Product) (c : string) (st : State) :
  In p (PRODUCTS st) -> Str.nonempty c = true ->
  (ascii_case_variant (category p) c ->
   In p (products (get_products (Some c) st)))
  /\ (Str.lower (category p) = Str.lower c ->
      In p (products (get_products (Some c) st)))
  /\ (category p = EmptyString ->
      ~ In p (products (get_products (Some c) st))).
Proof.
  intros Hp Hc. unfold get_products. rewrite Hc. cbn [products].
  rewrite filter_caseless.
  assert (Hlow : Str.lower (category p) = Str.lower c ->
                 In p (filter (fun p => caseless_eq (category p) c) (PRODUCTS st))).
  { intros Hcase. apply list_elem_of_In, list_elem_of_filter.
    split; [exact Hcase | now apply list_elem_of_In]. }
  split; [|split].
  - intros Hcase. apply Hlow. now apply ascii_case_variant_lower.
  - exact Hlow.
  - intros Hempty Hin. apply list_elem_of_In, list_elem_of_filter in Hin as [Hcase _].
    unfold caseless_eq in Hcase. rewrite Hempty in Hcase.
    destruct c; [discriminate Hc | discriminate Hcase].
Qed.

Lemma get_products_own_category_witness :
  category boots = "footwear"
  /\ In boots (products (get_products (Some "Footwear") sample_state)).
Proof.
  split; [reflexivity|].
  exact (proj1 (get_products_own_category boots "Footwear" sample_state
                  ltac:(cbn; tauto) eq_refl)
           footwear_Footwear).
Defined.

(* ===================================================================== *)
(** ** Properties of the category list *)
(* ===================================================================== *)

Lemma leb_iff (x y : string) :
  String.leb x y = true <-> x = y \/ OrderedTypeEx.String_as_OT.lt x y.
Proof.
  unfold String.leb.
  pose proof (OrderedTypeEx.String_as_OT.cmp_eq x y) as Heq.
  pose proof (OrderedTypeEx.String_as_OT.cmp_lt x y) as Hlt.
  unfold OrderedTypeEx.String_as_OT.cmp in Heq, Hlt.
  destruct (String.compare x y) eqn:E.
  - split; [intros _; left; now apply Heq | reflexivity].
  - split; [intros _; right; now apply Hlt | reflexivity].
  - split; [discriminate|].
    intros [H|H]; [apply Heq in H | apply Hlt in H]; discriminate H.
Qed.

Lemma leb_trans (x y z : string) :
  String.leb x y = true -> String.leb y z = true -> String.leb x z = true.
Proof.
  rewrite !leb_iff. intros [->|Hxy] [->|Hyz]; auto.
  right. now apply (OrderedTypeEx.String_as_OT.lt_trans x y z).
Qed.

Lemma leb_false_flip (x y : string) :
  String.leb x y = false -> String.leb y x = true.
Proof.
  intros H. destruct (String.leb_total x y) as [H'|H']; [congruence | exact H'].
Qed.

Lemma insert_asc_perm (x : string) (l : list string) :
  Permutation (x :: l) (insert_asc x l).
Proof.
  induction l as [|y l IH]; simpl; [reflexivity|].
  destruct (String.leb x y); [reflexivity|].
  rewrite perm_swap. now apply perm_skip.
Qed.

Lemma sort_asc_perm (l : list string) : Permutation l (sort_asc l).
Proof.
  induction l as [|x l IH]; simpl; [reflexivity|].
  rewrite <- insert_asc_perm. now apply perm_skip.
Qed.

Lemma insert_asc_sorted (x : string) (l : list string) :
  StronglySorted (fun a b => String.leb a b = true) l ->
  StronglySorted (fun a b => String.leb a b = true) (insert_asc x l).
Proof.
  induction l as [|y l IH]; intros Hl; simpl.
  - repeat constructor.
  - apply StronglySorted_inv in Hl as [Hl Hy].
    destruct (String.leb x y) eqn:E.
    + constructor; [now constructor|].
      constructor; [exact E|].
      eapply List.Forall_impl; [|exact Hy]. intros z Hz. now apply (leb_trans x y z).
    + constructor; [now apply IH|].
      apply (Permutation_Forall (insert_asc_perm x l)).
      constructor; [now apply leb_false_flip | exact Hy].
Qed.

Lemma sort_asc_sorted (l : list string) :
  StronglySorted (fun a b => String.leb a b = true) (sort_asc l).
Proof.
  induction l as [|x l IH]; simpl; [constructor|].
  now apply insert_asc_sorted.
Qed.

Lemma sorted_distinct_strict (l : list string) :
  StronglySorted (fun a b => String.leb a b = true) l -> NoDup l ->
  strictly_ascending l.
Proof.
  unfold strictly_ascending. induction l as [|x l IH]; intros Hs Hnd; [constructor|].
  apply StronglySorted_inv in Hs as [Hs Hx].
  apply NoDup_cons in Hnd as [Hnotin Hnd].
  constructor; [now apply IH|].
  rewrite List.Forall_forall in Hx |- *. intros y Hy.
  destruct (proj1 (leb_iff x y) (Hx y Hy)) as [->|Hlt]; [|exact Hlt].
  exfalso. apply Hnotin. now apply list_elem_of_In.
Qed.

Lemma lt_irrefl (x : string) : ~ OrderedTypeEx.String_as_OT.lt x x.
Proof. intros H. now apply (OrderedTypeEx.String_as_OT.lt_not_eq x x H). Qed.

(** Two strictly ascending lists with the same members are equal. *)
Lemma strictly_ascending_unique (l1 l2 : list string) :
  strictly_ascending l1 -> strictly_ascending l2 ->
  (forall x, In x l1 <-> In x l2) -> l1 = l2.
Proof.
  unfold strictly_ascending. revert l2.
  induction l1 as [|x t1 IH]; intros l2 H1 H2 Hsame.
  - destruct l2 as [|y t2]; [reflexivity|].
    now destruct (proj2 (Hsame y) (or_introl eq_refl)).
  - destruct l2 as [|y t2]; [now destruct (proj1 (Hsame x) (or_introl eq_refl))|].
    apply StronglySorted_inv in H1 as [H1 Hx], H2 as [H2 Hy].
    rewrite List.Forall_forall in Hx, Hy.
    assert (Hxy : x = y).
    { destruct (proj1 (Hsame x) (or_introl eq_refl)) as [E|Hin]; [now symmetry|].
      destruct (proj2 (Hsame y) (or_introl eq_refl)) as [E|Hin']; [exact E|].
      exfalso. apply (lt_irrefl x).
      apply (OrderedTypeEx.String_as_OT.lt_trans x y x); auto. }
    subst y. f_equal. apply IH; [exact H1 | exact H2|].
    intros z. split; intros Hz.
    + destruct (proj1 (Hsame z) (or_intror Hz)) as [<-|Hin]; [|exact Hin].
      exfalso. apply (lt_irrefl x). now apply Hx.
    + destruct (proj2 (Hsame z) (or_intror Hz)) as [<-|Hin]; [|exact Hin].
      exfalso. apply (lt_irrefl x). now apply Hy.
Qed.

Lemma categories_set_members (st : State) (c : string) :
  In c (elements (list_to_set (map category (PRODUCTS st)) : gset string))
  <-> exists p, In p (PRODUCTS st) /\ category p = c.
Proof.
  rewrite <- list_elem_of_In, elem_of_elements, elem_of_list_to_set, list_elem_of_In.
  rewrite in_map_iff. split; intros [p [H1 H2]]; exists p; tauto.
Qed.

(** X25. The category list is strictly ascending in code-point order, hence
    free of duplicates, and holds exactly the categories that occur in
    the catalog. The order in which the set is listed before sorting does
    not matter: it is the only strictly ascending list of those
    categories. *)
Theorem get_categories_sorted_unique (st : State) :
  strictly_ascending (get_categories st)
  /\ NoDup (get_categories st)
  /\ (forall c, In c (get_categories st)
                <-> exists p, In p (PRODUCTS st) /\ category p = c)
  /\ (forall l, strictly_ascending l ->
                (forall c, In c l <-> exists p, In p (PRODUCTS st) /\ category p = c) ->
                l = get_categories st).
Proof.
  set (raw := elements (list_to_set (map category (PRODUCTS st)) : gset string)).
  assert (Hnd : NoDup (get_categories st)).
  { unfold get_categories. fold raw.
    rewrite <- (sort_asc_perm raw). apply NoDup_elements. }
  assert (Hsorted : strictly_ascending (get_categories st)).
  { apply sorted_distinct_strict; [apply sort_asc_sorted | exact Hnd]. }
  assert (Hmem : forall c, In c (get_categories st)
                  <-> exists p, In p (PRODUCTS st) /\ category p = c).
  { intros c. rewrite <- categories_set_members. fold raw. unfold get_categories.
    fold raw. split; apply Permutation_in;
      [symmetry|]; apply sort_asc_perm. }
  split; [exact Hsorted|]. split; [exact Hnd|]. split; [exact Hmem|].
  intros l Hl Hsame. apply strictly_ascending_unique; [exact Hl | exact Hsorted|].
  intros c. now rewrite Hsame, Hmem.
Qed.

(** X26. Every non-empty category offered by the category list leads to a
    non-empty product listing. *)
Theorem get_categories_listed (st : State) (c : string) :
  In c (get_categories st) -> Str.nonempty c = true ->
  exists p, In p (products (get_products (Some c) st)) /\ category p = c.
Proof.
  intros Hc Hne.
  assert (Hp : exists p, In p (PRODUCTS st) /\ category p = c).
  { unfold get_categories in Hc.
    apply (Permutation_in _ (Permutation_sym (sort_asc_perm _))) in Hc.
    now apply categories_set_members in Hc. }
  destruct Hp as [p [Hp Hcat]]. exists p. split; [|exact Hcat].
  unfold get_products. rewrite Hne. cbn [products]. rewrite filter_caseless.
  apply list_elem_of_In, list_elem_of_filter.
  split; [unfold caseless_eq; now rewrite Hcat | now apply list_elem_of_In].
Qed.

Example sample_categories :
  get_categories sample_state = ["Electronics"; "Footwear"; "footwear"].
Proof. vm_compute. reflexivity. Qed.

Lemma get_categories_listed_witness :
  exists p, In p (products (get_products (Some "footwear") sample_state))
            /\ category p = "footwear".
Proof.
  apply (get_categories_listed sample_state "footwear"); [|reflexivity].
  rewrite sample_categories. cbn. tauto.
Defined.

(* ===================================================================== *)
(** ** Properties of the catalog validator *)
(* ===================================================================== *)

Lemma has_keys_object (d : Dict) (keys : list string) :
  exists b, has_keys (JObject d) keys = Ok b
            /\ (b = true <-> forall k, In k keys -> is_Some (dict_get k d)).
Proof.
  induction keys as [|k keys [b [Hrun Hb]]].
  - exists true. split; [reflexivity|]. split; [intros _ k []|reflexivity].
  - cbn [has_keys py_in rbind]. destruct (dict_get k d) as [v|] eqn:E.
    + exists b. split; [exact Hrun|]. rewrite Hb. split.
      * intros H k' [<-|Hk']; [now exists v | now apply H].
      * intros H k' Hk'. apply H. now right.
    + exists false. split; [reflexivity|]. split; [discriminate|].
      intros H. destruct (H k (or_introl eq_refl)) as [v Hv]. congruence.
Qed.

Lemma check_products_objects (items : list json) :
  Forall (fun item => exists d, item = JObject d) items ->
  exists b, check_products items = Ok b
            /\ (b = true <-> Forall complete_record items).
Proof.
  induction 1 as [|item items [d ->] _ [b [Hrun Hb]]].
  - exists true. split; [reflexivity|]. split; [constructor | reflexivity].
  - cbn [check_products].
    destruct (has_keys_object d required_keys) as [c [Hc Hkeys]].
    rewrite Hc. cbn [rbind]. destruct c.
    + exists b. split; [exact Hrun|]. rewrite Hb. split.
      * intros H. constructor; [|exact H]. exists d. split; [reflexivity|].
        now apply Hkeys.
      * intros H. now apply Forall_cons in H as [_ H].
    + exists false. split; [reflexivity|]. split; [discriminate|].
      intros H. apply Forall_cons in H as [[d' [[= <-] Hd']] _].
      apply Hkeys in Hd'. discriminate Hd'.
Qed.

(** X27. On a list of records the validator accepts exactly the catalogs with
    at least 50 records that all carry the six required keys. Nothing
    else is looked at: neither the values nor whether identifiers repeat. *)
Theorem validate_products_accepts_iff (items : list json) :
  Forall (fun item => exists d, item = JObject d) items ->
  (validate_products (Ok (JArray items)) = true
   <-> (50 <= length items)%nat /\ Forall complete_record items).
Proof.
  intros Hobj. unfold validate_products. cbn [rbind py_len iterate].
  destruct (check_products_objects items Hobj) as [b [Hrun Hb]].
  destruct (length items <? 50)%nat eqn:E.
  - apply Nat.ltb_lt in E. split; [discriminate | intros [H _]; lia].
  - apply Nat.ltb_ge in E. rewrite Hrun, Hb. tauto.
Qed.

Lemma sneaker_record_complete : complete_record (JObject sneaker_record).
Proof.
  exists sneaker_record. split; [reflexivity|]. intros k Hk. simpl in Hk.
  repeat (destruct Hk as [<-|Hk]; [now eexists|]). destruct Hk.
Qed.

Lemma validate_products_accepts_iff_witness :
  validate_products (Ok (JArray (replicate 50 (JObject sneaker_record)))) = true.
Proof.
  apply (proj2 (validate_products_accepts_iff
                  (replicate 50 (JObject sneaker_record))
                  (Forall_replicate _ 50 _ (ex_intro _ sneaker_record eq_refl)))).
  split; [rewrite length_replicate; apply le_n|].
  apply Forall_replicate, sneaker_record_complete.
Defined.

Lemma check_products_scalar (items : list json) (item : json) :
  In item items -> scalar item = true -> check_products items <> Ok true.
Proof.
  induction items as [|x items IH]; intros Hin Hs; [destruct Hin|].
  cbn [check_products]. destruct Hin as [->|Hin].
  - destruct item; try discriminate Hs; cbn; discriminate.
  - destruct (has_keys x required_keys) as [[]|e]; cbn [rbind];
      [now apply IH | discriminate | discriminate].
Qed.

(** X28. What the validator always rejects, without raising: a catalog file
    that cannot be read or parsed, a list of fewer than 50 entries, a
    top-level number, boolean or null, and any list in which some entry is
    a number, a boolean or null. *)
Theorem validate_products_rejects (e : exn) (v : json) (items : list json) (item : json) :
  validate_products (Raise e) = false
  /\ (scalar v = true -> validate_products (Ok v) = false)
  /\ ((length items < 50)%nat -> validate_products (Ok (JArray items)) = false)
  /\ (In item items -> scalar item = true ->
      validate_products (Ok (JArray items)) = false).
Proof.
  split; [reflexivity|]. split; [|split].
  - intros Hs. destruct v; try discriminate Hs; reflexivity.
  - intros Hlen. unfold validate_products. cbn [rbind py_len].
    apply Nat.ltb_lt in Hlen. now rewrite Hlen.
  - intros Hin Hs. unfold validate_products. cbn [rbind py_len iterate].
    destruct (length items <? 50)%nat; [reflexivity|].
    pose proof (check_products_scalar items item Hin Hs) as Hno.
    destruct (check_products items) as [[]|]; [congruence | reflexivity | reflexivity].
Qed.

Lemma validate_products_rejects_witness :
  validate_products (Ok JNull) = false
  /\ validate_products (Ok (JArray [JObject sneaker_record])) = false
  /\ validate_products (Ok (JArray (JNull :: replicate 50 (JObject sneaker_record))))
     = false.
Proof.
  split; [|split].
  - exact (proj1 (proj2 (validate_products_rejects JSONDecodeError JNull [] JNull))
             eq_refl).
  - apply (proj1 (proj2 (proj2 (validate_products_rejects JSONDecodeError JNull
                                  [JObject sneaker_record] JNull)))).
    cbn. repeat constructor.
  - apply (proj2 (proj2 (proj2 (validate_products_rejects JSONDecodeError JNull
                                  (JNull :: replicate 50 (JObject sneaker_record)) JNull))));
      [now left | reflexivity].
Defined.

(* ===================================================================== *)
(** ** Properties of the health check *)
(* ===================================================================== *)

(** X29. The health report agrees with the other routes: it counts what the
    unfiltered listing lists, and it reports the provider as configured
    exactly when the analyzer sends the image to the provider. *)
Theorem health_check_consistent
    (Image : Type) (generate_content : payload Image -> provider_outcome)
    (json_loads : string -> result json)
    (GEMINI_API_KEY : option string) (st : State) (image : Image) (is_url : bool) :
  products_count (health_check GEMINI_API_KEY st) = count (get_products None st)
  /\ (gemini_configured (health_check GEMINI_API_KEY st) = true
      <-> fst (analyze_image Image generate_content json_loads
                 (GEMINI_ENABLED GEMINI_API_KEY) image is_url) <> []).
Proof.
  split; [reflexivity|]. cbn [health_check gemini_configured].
  unfold analyze_image, analyze_body.
  destruct (GEMINI_ENABLED GEMINI_API_KEY); cbn [negb].
  - split; [intros _|reflexivity].
    destruct (rbind _ _); discriminate.
  - split; [discriminate | intros H; now destruct H].
Qed.

(* ===================================================================== *)
(** ** The further properties at sample inputs *)
(* ===================================================================== *)

Lemma analyze_image_not_an_object_witness :
  analyze_image unit list_provider list_loads true tt false
  = ([Inline tt], Ok (fallback "Unable to analyze image at this time.")).
Proof.
  apply (proj2 (analyze_image_not_an_object unit list_provider list_loads tt "[]"
                  (JArray []) eq_refl ltac:(discriminate)));
    [|reflexivity].
  left. repeat (apply absent_cons; split; [discriminate|]). apply absent_nil.
Defined.

(** A list that holds an object is cut down to that object, and the
    analysis is the normalized object, not the last-resort description. *)
Example analyze_image_list_of_object :
  extract_json_text ("[{" ++ "}]") = "{" ++ "}"
  /\ analyze_image unit nested_provider nested_loads true tt false
     = ([Inline tt],
        Ok [ ("summary", JString EmptyString); ("category", JString "Unknown");
             ("colors", JArray []); ("materials", JArray []); ("style", JArray []);
             ("objects", JArray []); ("suggested_tags", JArray []) ]).
Proof. split; vm_compute; reflexivity. Qed.

Lemma shoe_query :
  read_query unit shoe_provider sample_loads sample_repr (Some "key") shoe_upload
  = inr (sample_description,
         "A red running shoe. Footwear red white sporty shoe sneaker running").
Proof. vm_compute. reflexivity. Qed.

Lemma search_result_shape_witness :
  exists results st',
    search_products unit shoe_provider sample_loads sample_repr (Some "key")
      shoe_upload sample_state
    = (Success sample_description results 3, st')
    /\ length results = 3%nat
    /\ Forall (fun r => In (product r) (PRODUCTS sample_state)
                        /\ (0 <= similarity r)%Q /\ (similarity r <= 1)%Q
                        /\ exists k, similarity r = k # 10000) results.
Proof.
  exact (search_result_shape unit shoe_provider sample_loads sample_repr (Some "key")
           shoe_upload sample_state _ _ shoe_query).
Defined.


Lemma search_scores_own_text_witness :
  fst (search_products unit shoe_provider sample_loads sample_repr (Some "key")
         shoe_upload sample_state)
  = Success sample_description
      [ {| product := sneaker; similarity := 5200 # 10000 |};
        {| product := boots; similarity := 1083 # 10000 |};
        {| product := iphone; similarity := 0 # 10000 |} ] 3
  /\ calculate_similarity
       "A red running shoe. Footwear red white sporty shoe sneaker running"
       (product_text boots) = Ok (13 # 120)
  /\ exists scored,
       fst (search_products unit shoe_provider sample_loads sample_repr (Some "key")
              shoe_upload sample_state)
       = Success sample_description (take 20 (sort_desc scored))
           (length (take 20 (sort_desc scored)))
       /\ coherent (snd (search_products unit shoe_provider sample_loads sample_repr
                           (Some "key") shoe_upload sample_state))
       /\ Forall2 (fun p r =>
                     product r = p
                     /\ exists q,
                          calculate_similarity
                            "A red running shoe. Footwear red white sporty shoe sneaker running"
                            (product_text p) = Ok q
                          /\ rounded_to_4 q (similarity r))
            (PRODUCTS sample_state) scored.
Proof.
  split; [vm_compute; reflexivity|]. split; [vm_compute; reflexivity|].
  exact (search_scores_own_text unit shoe_provider sample_loads sample_repr (Some "key")
           shoe_upload sample_state _ _ sample_ids_unique (empty_cache_coherent _)
           shoe_query).
Defined.

Lemma search_error_statuses_witness :
  fst (search_products unit failing_provider sample_loads sample_repr None
         (JsonBody (Ok JNull) (Ok tt)) sample_state)
  = Error 500 (SearchFailed TypeError)
  /\ ((500 = 400 \/ 500 = 500)%nat
      /\ (500%nat = 500%nat ->
          exists e, SearchFailed TypeError = SearchFailed e
                    /\ ((exists filename opened,
                           JsonBody (Ok JNull) (Ok tt) = FileUpload filename opened)
                        \/ (exists body fetched,
                              JsonBody (Ok JNull) (Ok tt) = JsonBody body fetched
                              /\ (body = Raise e
                                  \/ exists data,
                                       body = Ok data
                                       /\ (py_in "image_url" data = Raise e
                                           \/ py_getitem data "image_url" = Raise e)))))
      /\ (forall image_url fetched,
            JsonBody (Ok JNull) (Ok tt) = JsonUrl image_url fetched -> 500%nat = 400%nat)).
Proof.
  split; [reflexivity|].
  exact (search_error_statuses unit failing_provider sample_loads sample_repr None
           (JsonBody (Ok JNull) (Ok tt)) sample_state 500 (SearchFailed TypeError)
           eq_refl).
Defined.

Lemma search_survives_provider_failure_witness :
  exists summary results st',
    search_products unit failing_provider sample_loads sample_repr (Some "key")
      shoe_upload sample_state
    = (Success (fallback summary) results 3, st').
Proof.
  apply (search_survives_provider_failure unit failing_provider sample_loads
           sample_repr (Some "key") shoe_upload tt sample_state).
  - left. exists "shoe", "PNG". split; [reflexivity|]. split; [|cbn; tauto].
    repeat (apply absent_cons; split; [discriminate|]). apply absent_nil.
  - right. reflexivity.
Defined.
